(** * The wagon JIT scanner and its native-call trampoline

    A shallow embedding of [exec/internal/compile/scanner.go] (the
    candidate scanner [ScanFunc]) and of the amd64 assembly stub
    [jitcall], followed by the properties established about them. *)

From stdpp Require Import strings functions gmap list sorting.

Local Open Scope Z_scope.

(** ** Go machine integers (amd64: [int] and [uint] are 64 bits wide) *)

Module GoInt.

Definition int_min : Z := - 2 ^ 63.
Definition int_max : Z := 2 ^ 63 - 1.

(** Two's-complement wrap-around of a signed 64-bit result. *)
Definition int (z : Z) : Z := (z + 2 ^ 63) mod 2 ^ 64 - 2 ^ 63.

(** Wrap-around of an unsigned 64-bit result; also the conversion
    [uint(x)] of a signed value. *)
Definition uint (z : Z) : Z := z mod 2 ^ 64.

(** Values a Go [int] can hold. *)
Definition is_int (z : Z) : Prop := int_min <= z <= int_max.

#[global] Instance is_int_dec z : Decision (is_int z).
Proof. unfold is_int. apply _. Defined.

End GoInt.

(** ** Data model of scanner.go *)

(** [InstructionMetadata]: [Op] is a byte, [Start] and [Size] are [int]. *)
Record InstructionMetadata := mkInst {
  inst_Op : Z;
  inst_Start : Z;
  inst_Size : Z
}.

(** [Metrics]: the [uint] and [int] counters of an instruction run. *)
Record Metrics := mkMetrics {
  MemoryReads : Z;
  MemoryWrites : Z;
  StackReads : Z;
  StackWrites : Z;
  AllOps : Z;
  IntegerOps : Z;
  FloatOps : Z
}.

(** [CompilationCandidate]; [End] is a keyword here, so the fields carry
    the prefix [cand_]. *)
Record CompilationCandidate := mkCand {
  cand_Start : Z;
  cand_End : Z;
  cand_StartInstruction : Z;
  cand_EndInstruction : Z;
  cand_Metrics : Metrics
}.

(** [scanner]: the table of opcodes the backend can compile. *)
Record scanner := mkScanner {
  supportedOpcodes : gmap Z bool
}.

(** Modelled from the spec: the struct [BytecodeMetadata] is declared in
    another file of package [compile]. [ScanFunc] reads two of its fields:
    the ordered instruction list and the map [InboundTargets], of which it
    only tests key presence, so the map is represented by its key set. *)
Record BytecodeMetadata := mkMeta {
  Instructions : list InstructionMetadata;
  InboundTargets : gset Z
}.

(** Modelled from the spec: the opcode constants of package
    [wasm/operators] that the metrics table of [ScanFunc] names. Their
    numeric values are not needed; Go rejects a [switch] with duplicate
    constant cases, which is recorded as [ops_distinct]. *)
Class Operators := mkOperators {
  I64Const : Z; GetLocal : Z; SetLocal : Z; I64Eqz : Z;
  I64Eq : Z; I64Ne : Z; I64LtU : Z; I64GtU : Z; I64LeU : Z; I64GeU : Z;
  I64Shl : Z; I64ShrU : Z; I64ShrS : Z;
  I64DivU : Z; I64RemU : Z; I64DivS : Z; I64RemS : Z;
  I64Add : Z; I64Sub : Z; I64Mul : Z; I64And : Z; I64Or : Z; I64Xor : Z;
  ops_distinct :
    NoDup [I64Const; GetLocal; SetLocal; I64Eqz;
           I64Eq; I64Ne; I64LtU; I64GtU; I64LeU; I64GeU;
           I64Shl; I64ShrU; I64ShrS;
           I64DivU; I64RemU; I64DivS; I64RemS;
           I64Add; I64Sub; I64Mul; I64And; I64Or; I64Xor]
}.

(** The Go zero values [Metrics{}] and [CompilationCandidate{}]. *)
Definition zeroMetrics : Metrics := mkMetrics 0 0 0 0 0 0 0.
Definition zeroCandidate : CompilationCandidate := mkCand 0 0 0 0 zeroMetrics.

(** The method [reset] of [CompilationCandidate]. *)
Definition reset (c : CompilationCandidate) : CompilationCandidate :=
  {| cand_Start := 0;
     cand_End := 0;
     cand_StartInstruction := 0;
     cand_EndInstruction := 1;
     cand_Metrics := zeroMetrics |}.

(** The method [Bounds] of [CompilationCandidate]. *)
Definition Bounds (c : CompilationCandidate) : Z * Z :=
  (cand_Start c, cand_End c).

(** [s.supportedOpcodes[op]]: a missing key reads as [false]. *)
Definition supported (s : scanner) (op : Z) : bool :=
  default false (supportedOpcodes s !! op).

(** Field updates of [inProgress.Metrics]. *)
Definition incIntegerOps (m : Metrics) : Metrics :=
  mkMetrics (MemoryReads m) (MemoryWrites m) (StackReads m) (StackWrites m)
            (AllOps m) (GoInt.int (IntegerOps m + 1)) (FloatOps m).

Definition addStackReads (k : Z) (m : Metrics) : Metrics :=
  mkMetrics (MemoryReads m) (MemoryWrites m) (GoInt.uint (StackReads m + k))
            (StackWrites m) (AllOps m) (IntegerOps m) (FloatOps m).

Definition incStackWrites (m : Metrics) : Metrics :=
  mkMetrics (MemoryReads m) (MemoryWrites m) (StackReads m)
            (GoInt.uint (StackWrites m + 1)) (AllOps m) (IntegerOps m)
            (FloatOps m).

Definition incAllOps (m : Metrics) : Metrics :=
  mkMetrics (MemoryReads m) (MemoryWrites m) (StackReads m) (StackWrites m)
            (GoInt.int (AllOps m + 1)) (IntegerOps m) (FloatOps m).

Section Scanner.

Context `{ops : Operators}.

(** The case lists of the [switch inst.Op] statement, in source order. *)
Definition loadOps : list Z := [I64Const; GetLocal].
Definition storeOps : list Z := [SetLocal].
Definition eqzOps : list Z := [I64Eqz].
Definition binaryOps : list Z :=
  [I64Eq; I64Ne; I64LtU; I64GtU; I64LeU; I64GeU;
   I64Shl; I64ShrU; I64ShrS;
   I64DivU; I64RemU; I64DivS; I64RemS;
   I64Add; I64Sub; I64Mul; I64And; I64Or; I64Xor].

Definition isCase (op : Z) (cases : list Z) : bool :=
  existsb (Z.eqb op) cases.

(** The [switch inst.Op] statement followed by [AllOps++]. *)
Definition countOp (op : Z) (m : Metrics) : Metrics :=
  let m1 :=
    if isCase op loadOps then incStackWrites (incIntegerOps m)
    else if isCase op storeOps then addStackReads 1 (incIntegerOps m)
    else if isCase op eqzOps then
      incStackWrites (addStackReads 1 (incIntegerOps m))
    else if isCase op binaryOps then
      incStackWrites (addStackReads 2 (incIntegerOps m))
    else m in
  incAllOps m1.

(** The loop state: [finishedCandidates] and [inProgress]. *)
Definition scanState : Type :=
  (list CompilationCandidate * CompilationCandidate)%type.

(** One iteration of [for i, inst := range meta.Instructions]. *)
Definition scanStep (s : scanner) (targets : gset Z)
    (st : scanState) (i : Z) (inst : InstructionMetadata) : scanState :=
  let '(finishedCandidates, inProgress) := st in
  let hasInboundTarget := bool_decide (inst_Start inst ∈ targets) in
  let isInsideBranchTarget :=
    hasInboundTarget && (0 <? inst_Start inst)
      && (0 <? AllOps (cand_Metrics inProgress)) in
  if negb (supported s (inst_Op inst)) || isInsideBranchTarget then
    ((if 2 <? AllOps (cand_Metrics inProgress)
      then finishedCandidates ++ [inProgress]
      else finishedCandidates),
     reset inProgress)
  else
    let first := AllOps (cand_Metrics inProgress) =? 0 in
    (finishedCandidates,
     {| cand_Start :=
          if first then GoInt.uint (inst_Start inst)
          else cand_Start inProgress;
        cand_End :=
          GoInt.uint (GoInt.uint (inst_Start inst)
                      + GoInt.uint (inst_Size inst));
        cand_StartInstruction :=
          if first then i else cand_StartInstruction inProgress;
        cand_EndInstruction := GoInt.int (i + 1);
        cand_Metrics := countOp (inst_Op inst) (cand_Metrics inProgress) |}).

(** The [range] loop from index [i] on. *)
Fixpoint scanLoop (s : scanner) (targets : gset Z)
    (insts : list InstructionMetadata) (i : Z) (st : scanState)
    : scanState :=
  match insts with
  | [] => st
  | inst :: rest =>
      scanLoop s targets rest (i + 1) (scanStep s targets st i inst)
  end.

(** The emission test shared by the loop body and the function end. *)
Definition emit (st : scanState) : list CompilationCandidate :=
  let '(finishedCandidates, inProgress) := st in
  if 2 <? AllOps (cand_Metrics inProgress)
  then finishedCandidates ++ [inProgress]
  else finishedCandidates.

(** [ScanFunc]: the candidates and the [error] result ([None] is [nil]).
    The byte slice [bytecode] is a parameter the body never reads. *)
Definition ScanFunc (s : scanner) (bytecode : list Z)
    (meta : BytecodeMetadata)
    : list CompilationCandidate * option string :=
  (emit (scanLoop s (InboundTargets meta) (Instructions meta) 0
           ([], zeroCandidate)),
   None).

End Scanner.

(** The WebAssembly binary opcodes, as an instance of the table. *)
Definition wasmOperators : Operators.
Proof.
  refine (mkOperators 0x42 0x20 0x21 0x50
            0x51 0x52 0x54 0x56 0x58 0x5a
            0x86 0x88 0x87
            0x80 0x82 0x7f 0x81
            0x7c 0x7d 0x7e 0x83 0x84 0x85 _).
  apply (bool_decide_unpack _). vm_compute. reflexivity.
Defined.

(** ** Specification-level notions for the scanner *)

(** Classes of the metrics table. *)
Inductive opClass :=
  | ConstOrLocalRead
  | LocalWrite
  | CompareToZero
  | BinaryInteger
  | Unclassified.

(** What one included instruction of a class adds to the counters. *)
Definition classContribution (k : opClass) : Metrics :=
  match k with
  | ConstOrLocalRead => mkMetrics 0 0 0 1 1 1 0
  | LocalWrite => mkMetrics 0 0 1 0 1 1 0
  | CompareToZero => mkMetrics 0 0 1 1 1 1 0
  | BinaryInteger => mkMetrics 0 0 2 1 1 1 0
  | Unclassified => mkMetrics 0 0 0 0 1 0 0
  end.

(** Field-wise sum of two counter records, over the integers. *)
Definition addMetrics (m1 m2 : Metrics) : Metrics :=
  mkMetrics (MemoryReads m1 + MemoryReads m2)
            (MemoryWrites m1 + MemoryWrites m2)
            (StackReads m1 + StackReads m2)
            (StackWrites m1 + StackWrites m2)
            (AllOps m1 + AllOps m2)
            (IntegerOps m1 + IntegerOps m2)
            (FloatOps m1 + FloatOps m2).

(** A Go slice holds at most [MaxInt] elements. *)
Definition go_slice {A} (l : list A) : Prop :=
  Z.of_nat (length l) <= GoInt.int_max.

(** Both [int] fields of an instruction hold Go [int] values. *)
Definition go_inst (x : InstructionMetadata) : Prop :=
  GoInt.is_int (inst_Start x) /\ GoInt.is_int (inst_Size x).

(** Offsets and sizes are not negative. *)
Definition nonneg_inst (x : InstructionMetadata) : Prop :=
  0 <= inst_Start x /\ 0 <= inst_Size x.

(** Offsets never decrease along the stream. *)
Definition offsets_nondecreasing (l : list InstructionMetadata) : Prop :=
  StronglySorted (fun x y => inst_Start x <= inst_Start y) l.

(** Offsets increase along the stream and no instruction reaches into a
    later one. *)
Definition laid_out (l : list InstructionMetadata) : Prop :=
  StronglySorted
    (fun x y => inst_Start x < inst_Start y
                /\ inst_Start x + inst_Size x <= inst_Start y) l.

(** Order of two candidates by instruction index. *)
Definition before_instr (c1 c2 : CompilationCandidate) : Prop :=
  cand_EndInstruction c1 < cand_StartInstruction c2.

(** Order of two candidates by byte offset: the earlier one starts
    strictly first and ends no later than the other starts. *)
Definition before_bytes (c1 c2 : CompilationCandidate) : Prop :=
  cand_Start c1 < cand_Start c2 /\ cand_End c1 <= cand_Start c2.

(** The counters that no table entry touches. *)
Definition untouched_zero (m : Metrics) : Prop :=
  MemoryReads m = 0 /\ MemoryWrites m = 0 /\ FloatOps m = 0.

(** The [switch], with its wrap-around, as one update per class. *)
Definition bump (k : opClass) (m : Metrics) : Metrics :=
  match k with
  | ConstOrLocalRead => incStackWrites (incIntegerOps m)
  | LocalWrite => addStackReads 1 (incIntegerOps m)
  | CompareToZero => incStackWrites (addStackReads 1 (incIntegerOps m))
  | BinaryInteger => incStackWrites (addStackReads 2 (incIntegerOps m))
  | Unclassified => m
  end.

(** Counters that stay below [k <= MaxInt - 1] do not wrap. *)
Definition countersBelow (k : Z) (m : Metrics) : Prop :=
  0 <= StackReads m <= 2 * k /\ 0 <= StackWrites m <= k
  /\ 0 <= AllOps m <= k /\ 0 <= IntegerOps m <= k.

Section ScannerSpec.

Context `{ops : Operators}.

(** The metrics table as data: opcode and class, in source order. *)
Definition classTable : list (Z * opClass) :=
  ((fun o => (o, ConstOrLocalRead)) <$> loadOps)
  ++ ((fun o => (o, LocalWrite)) <$> storeOps)
  ++ ((fun o => (o, CompareToZero)) <$> eqzOps)
  ++ ((fun o => (o, BinaryInteger)) <$> binaryOps).

Fixpoint lookupClass (op : Z) (t : list (Z * opClass)) : opClass :=
  match t with
  | [] => Unclassified
  | (k, c) :: t' => if op =? k then c else lookupClass op t'
  end.

Definition classify (op : Z) : opClass := lookupClass op classTable.

(** The fixed contribution of one instruction with opcode [op]. *)
Definition contribution (op : Z) : Metrics :=
  classContribution (classify op).

(** Sum of the contributions of a list of instructions. *)
Definition sumContributions (l : list InstructionMetadata) : Metrics :=
  foldr (fun x acc => addMetrics acc (contribution (inst_Op x)))
        zeroMetrics l.

(** The instructions with index in [[a, b)]. *)
Definition instrRange (l : list InstructionMetadata) (a b : nat)
    : list InstructionMetadata :=
  take (b - a) (drop a l).

(** Candidate [c] is the run of instructions [[a, b)] of [l]. *)
Definition describes (l : list InstructionMetadata)
    (c : CompilationCandidate) (a b : nat) : Prop :=
  (a < b <= length l)%nat
  /\ cand_StartInstruction c = Z.of_nat a
  /\ cand_EndInstruction c = Z.of_nat b
  /\ (exists x, l !! a = Some x
                /\ cand_Start c = GoInt.uint (inst_Start x))
  /\ (exists y, l !! (b - 1)%nat = Some y
                /\ cand_End c =
                     GoInt.uint (GoInt.uint (inst_Start y)
                                 + GoInt.uint (inst_Size y)))
  /\ cand_Metrics c = sumContributions (instrRange l a b).

(** The test that ends a run at an instruction. *)
Definition disqualified (s : scanner) (targets : gset Z)
    (inProgress : CompilationCandidate) (inst : InstructionMetadata)
    : bool :=
  negb (supported s (inst_Op inst))
  || (bool_decide (inst_Start inst ∈ targets)
      && (0 <? inst_Start inst)
      && (0 <? AllOps (cand_Metrics inProgress))).

(** Loop invariant after [n] instructions: the finished candidates are
    runs of at least three instructions that all end before index [lo],
    they are ordered, and the accumulator is either empty or the run
    [[lo, n)]. *)
Definition scanInv (l : list InstructionMetadata) (n : nat)
    (st : scanState) : Prop :=
  exists lo : nat,
    (lo <= n)%nat
    /\ Forall (fun c => exists a b, describes l c a b
                                    /\ (a + 3 <= b)%nat /\ (b < lo)%nat)
              st.1
    /\ StronglySorted before_instr st.1
    /\ ((lo = n /\ cand_Metrics st.2 = zeroMetrics)
        \/ describes l st.2 lo n).

End ScannerSpec.

(** ** The native-call trampoline [jitcall] (amd64, Go assembler syntax) *)

Module Amd64.

(** General-purpose registers other than the stack pointer. *)
Inductive reg :=
  | AX | BX | CX | DX | SI | DI | BP
  | R8 | R9 | R10 | R11 | R12 | R13 | R14 | R15.

#[global] Instance reg_eq_dec : EqDecision reg.
Proof. solve_decision. Defined.

(** Machine state: register file, hardware stack pointer, and memory as
    a partial map from addresses to the 64-bit words stored there. *)
Record machine := mkMachine {
  regs : reg -> Z;
  sp : Z;
  mem : gmap Z Z
}.

(** Source operands of [MOVQ]: an argument slot [name+off(FP)] and a
    register-relative word [off(base)]. *)
Inductive operand :=
  | Arg (name : string) (off : Z)
  | Mem (off : Z) (base : reg).

Inductive instr :=
  | GO_ARGS
  | MOVQ (src : operand) (dst : reg)
  | JMP (target : reg)
  | RET.

(** What executing one instruction leads to. *)
Inductive step_result :=
  | Next (m : machine)
  | Goto (addr : Z) (m : machine)
  | Fault.

(** In a [NOFRAME] function with frame size 0 the return address is at
    [0(SP)] and the pseudo-register [FP] points just above it. *)
Definition address (m : machine) (o : operand) : Z :=
  match o with
  | Arg _ off => GoInt.uint (sp m + 8 + off)
  | Mem off base => GoInt.uint (regs m base + off)
  end.

Definition setReg (r : reg) (v : Z) (m : machine) : machine :=
  mkMachine (<[r := v]> (regs m)) (sp m) (mem m).

Definition exec (i : instr) (m : machine) : step_result :=
  match i with
  | GO_ARGS => Next m
  | MOVQ src dst =>
      match mem m !! address m src with
      | Some v => Next (setReg dst v m)
      | None => Fault
      end
  | JMP target => Goto (regs m target) m
  | RET =>
      match mem m !! sp m with
      | Some ra => Goto ra (mkMachine (regs m) (GoInt.uint (sp m + 8)) (mem m))
      | None => Fault
      end
  end.

(** Straight-line execution of a function body; running off its end is
    a fault. *)
Fixpoint run (body : list instr) (m : machine) : step_result :=
  match body with
  | [] => Fault
  | i :: rest =>
      match exec i m with
      | Next m' => run rest m'
      | r => r
      end
  end.

(** [TEXT ·jitcall(SB),NOSPLIT|NOFRAME,$0-24]. *)
Definition jitcall : list instr :=
  [ GO_ARGS;
    MOVQ (Arg "asm" 0) AX;
    MOVQ (Arg "stack" 8) R10;
    MOVQ (Arg "locals" 16) R11;
    MOVQ (Mem 0 AX) AX;
    JMP AX ].

(** The state in which a caller enters [jitcall]: the three arguments
    sit in its argument slots. *)
Definition entered (m : machine) (codeAddress stackBase localsBase : Z)
    : Prop :=
  mem m !! GoInt.uint (sp m + 8) = Some codeAddress
  /\ mem m !! GoInt.uint (sp m + 16) = Some stackBase
  /\ mem m !! GoInt.uint (sp m + 24) = Some localsBase.

End Amd64.

(** ** Concrete streams used in the examples below *)

Module Samples.

(** A backend that compiles [i64.const], [i64.add] and [i64.sub]. *)
Definition backend : scanner :=
  mkScanner (list_to_map [(0x42, true); (0x7c, true); (0x7d, true)]).

Definition const (start : Z) : InstructionMetadata := mkInst 0x42 start 2.
Definition add (start : Z) : InstructionMetadata := mkInst 0x7c start 1.
Definition sub (start : Z) : InstructionMetadata := mkInst 0x7d start 1.
Definition call (start : Z) : InstructionMetadata := mkInst 0x10 start 2.

(** [Const, Const, Add, Call, Const, Const, Sub], no inbound targets. *)
Definition twoRuns : BytecodeMetadata :=
  mkMeta [const 0; const 2; add 4; call 5; const 7; const 9; sub 11] ∅.

(** Five constants; the third one, at offset 4, is a branch target. *)
Definition targetInside : BytecodeMetadata :=
  mkMeta [const 0; const 2; const 4; const 6; const 8] {[ 4 ]}.

(** Five constants; only the function entry is a branch target. *)
Definition entryTarget : BytecodeMetadata :=
  mkMeta [const 0; const 2; const 4; const 6; const 8] {[ 0 ]}.

(** The stream of [twoRuns] with every offset equal to 0. *)
Definition sameOffsets : BytecodeMetadata :=
  mkMeta [const 0; const 0; add 0; call 0; const 0; const 0; sub 0] ∅.

(** Three constants listed with decreasing offsets. *)
Definition decreasing : BytecodeMetadata :=
  mkMeta [const 10; const 5; const 0] ∅.

(** Eleven instructions with inbound targets at offsets 0, 6 and 16: the
    target at 6 cuts a run in progress, the one at 16 follows an
    unsupported [call]. *)
Definition targetCuts : BytecodeMetadata :=
  mkMeta [const 0; const 2; const 4; const 6; const 8; const 10; const 12;
          call 14; const 16; const 18; const 20] {[ 0; 6; 16 ]}.

(** A machine about to run [jitcall]: return address 42 on top of the
    stack at 1000, the arguments 5000, 6000 and 7000 above it, and the
    code slot at 5000 holding the address 9000. *)
Definition entry : Amd64.machine :=
  Amd64.mkMachine (fun _ => 0) 1000
    (list_to_map [(1000, 42); (1008, 5000); (1016, 6000); (1024, 7000);
                  (5000, 9000)]).

End Samples.

(** ** Further notions: what delimits a run *)

(** Sum of the [Size] fields of a list of instructions. *)
Definition sizeSum (l : list InstructionMetadata) : Z :=
  foldr (fun x acc => inst_Size x + acc) 0 l.

(** Each instruction starts where the previous one ends. *)
Fixpoint contiguous (l : list InstructionMetadata) : Prop :=
  match l with
  | x :: (y :: _) as rest =>
      inst_Start y = inst_Start x + inst_Size x /\ contiguous rest
  | _ => True
  end.

(** A candidate whose instruction indexes are moved by [k]. *)
Definition shiftCandidate (k : Z) (c : CompilationCandidate)
    : CompilationCandidate :=
  mkCand (cand_Start c) (cand_End c)
         (cand_StartInstruction c + k) (cand_EndInstruction c + k)
         (cand_Metrics c).

(** An instruction no run can continue over: its opcode is unsupported,
    or it starts at an inbound target with a non-zero offset. *)
Definition breaksRun (s : scanner) (targets : gset Z)
    (x : InstructionMetadata) : Prop :=
  supported s (inst_Op x) = false
  \/ (inst_Start x ∈ targets /\ 0 < inst_Start x).

(** The instructions [[a, b)] are all supported and none after the first
    starts at a non-zero inbound target. *)
Definition guardedRun (s : scanner) (targets : gset Z)
    (l : list InstructionMetadata) (a b : nat) : Prop :=
  (forall k x, (a <= k < b)%nat -> l !! k = Some x ->
               supported s (inst_Op x) = true)
  /\ (forall k x, (a < k < b)%nat -> l !! k = Some x ->
                  ~ (inst_Start x ∈ targets /\ 0 < inst_Start x)).

(** Index [a] is the start of the stream or follows a breaking
    instruction. *)
Definition openedAt (s : scanner) (targets : gset Z)
    (l : list InstructionMetadata) (a : nat) : Prop :=
  a = 0%nat \/ exists x, l !! (a - 1)%nat = Some x /\ breaksRun s targets x.

(** Index [b] is the end of the stream or holds a breaking instruction. *)
Definition closedAt (s : scanner) (targets : gset Z)
    (l : list InstructionMetadata) (b : nat) : Prop :=
  b = length l \/ exists x, l !! b = Some x /\ breaksRun s targets x.

Section RunSpec.

Context `{ops : Operators}.

(** Candidate [c] is the run [[a, b)], which is guarded and opened. *)
Definition runFacts (s : scanner) (targets : gset Z)
    (l : list InstructionMetadata) (c : CompilationCandidate)
    (a b : nat) : Prop :=
  describes l c a b /\ guardedRun s targets l a b /\ openedAt s targets l a.

(** The loop invariant [scanInv], extended with what delimits each run. *)
Definition scanInvRuns (s : scanner) (targets : gset Z)
    (l : list InstructionMetadata) (n : nat) (st : scanState) : Prop :=
  exists lo : nat,
    (lo <= n)%nat
    /\ Forall (fun c => exists a b,
                 runFacts s targets l c a b
                 /\ (a + 3 <= b)%nat /\ (b < lo)%nat
                 /\ (exists x, l !! b = Some x /\ breaksRun s targets x))
              st.1
    /\ ((lo = n /\ cand_Metrics st.2 = zeroMetrics
         /\ openedAt s targets l n)
        \/ runFacts s targets l st.2 lo n).

(** The accumulators of a scan and of the same scan started [k]
    instructions later: equal counters and, once a run is open, equal up
    to the shift of the indexes. *)
Definition shiftedState (k : Z) (pre : list CompilationCandidate)
    (st st' : scanState) : Prop :=
  st'.1 = pre ++ (shiftCandidate k <$> st.1)
  /\ cand_Metrics st'.2 = cand_Metrics st.2
  /\ (AllOps (cand_Metrics st.2) <> 0 -> st'.2 = shiftCandidate k st.2).

End RunSpec.

(** ** Facts about Go integers *)

Lemma int_id z : GoInt.is_int z -> GoInt.int z = z.
Proof.
  unfold GoInt.is_int, GoInt.int_min, GoInt.int_max, GoInt.int. intros H.
  rewrite Z.mod_small; lia.
Qed.

Lemma uint_id z : 0 <= z < 2 ^ 64 -> GoInt.uint z = z.
Proof. unfold GoInt.uint. intros H. apply Z.mod_small. lia. Qed.

Lemma uint_range z : 0 <= GoInt.uint z < 2 ^ 64.
Proof. unfold GoInt.uint. apply Z.mod_pos_bound. lia. Qed.

Lemma uint_nonneg_int z : 0 <= z -> GoInt.is_int z -> GoInt.uint z = z.
Proof.
  unfold GoInt.is_int, GoInt.int_min, GoInt.int_max. intros H0 H.
  apply uint_id. lia.
Qed.

(** The end offset of an instruction with in-range, non-negative fields. *)
Lemma end_offset_exact x :
  go_inst x -> nonneg_inst x ->
  GoInt.uint (GoInt.uint (inst_Start x) + GoInt.uint (inst_Size x))
  = inst_Start x + inst_Size x.
Proof.
  intros [Hs Hz] [Hs0 Hz0].
  rewrite (uint_nonneg_int (inst_Start x)) by assumption.
  rewrite (uint_nonneg_int (inst_Size x)) by assumption.
  apply uint_id.
  unfold GoInt.is_int, GoInt.int_min, GoInt.int_max in *. lia.
Qed.

(** ** Facts about the counters *)

Lemma addMetrics_zero_l m : addMetrics zeroMetrics m = m.
Proof. destruct m. reflexivity. Qed.

Lemma addMetrics_assoc m1 m2 m3 :
  addMetrics (addMetrics m1 m2) m3 = addMetrics m1 (addMetrics m2 m3).
Proof. unfold addMetrics. simpl. f_equal; lia. Qed.

Section ScannerFacts.

Context `{ops : Operators}.

Lemma countOp_classify op m :
  countOp op m = incAllOps (bump (classify op) m).
Proof.
  unfold countOp, classify, classTable, isCase,
    loadOps, storeOps, eqzOps, binaryOps.
  cbn [existsb fmap list_fmap app lookupClass orb].
  repeat (destruct (op =? _); [reflexivity | cbn [orb]]).
  reflexivity.
Qed.

Lemma countOp_contribution k op m :
  k < GoInt.int_max -> countersBelow k m ->
  countOp op m = addMetrics m (contribution op).
Proof.
  intros Hk (Hsr & Hsw & Hall & Hint).
  rewrite countOp_classify. unfold contribution.
  unfold GoInt.int_max in Hk.
  destruct m as [mr mw sr sw al io fo]; simpl in *.
  destruct (classify op);
    unfold bump, incAllOps, incStackWrites, addStackReads, incIntegerOps,
      addMetrics, classContribution; simpl;
    rewrite ?int_id, ?uint_id
      by (unfold GoInt.is_int, GoInt.int_min, GoInt.int_max; lia);
    f_equal; lia.
Qed.

Lemma sumContributions_app l1 l2 :
  sumContributions (l1 ++ l2)
  = addMetrics (sumContributions l2) (sumContributions l1).
Proof.
  induction l1 as [|x l1 IH]; simpl.
  - destruct (sumContributions l2). unfold addMetrics. simpl.
    f_equal; lia.
  - rewrite IH. apply addMetrics_assoc.
Qed.

Lemma sumContributions_snoc l x :
  sumContributions (l ++ [x])
  = addMetrics (sumContributions l) (contribution (inst_Op x)).
Proof.
  rewrite sumContributions_app. simpl. rewrite addMetrics_zero_l.
  unfold addMetrics. f_equal; lia.
Qed.

Lemma classContribution_bounds k :
  let m := classContribution k in
  MemoryReads m = 0 /\ MemoryWrites m = 0 /\ FloatOps m = 0
  /\ AllOps m = 1 /\ 0 <= StackReads m <= 2 /\ 0 <= StackWrites m <= 1
  /\ 0 <= IntegerOps m <= 1.
Proof. destruct k; simpl; lia. Qed.

(** The sum over a list: [AllOps] is the length, the other counters are
    bounded by it, and three counters stay zero. *)
Lemma sumContributions_bounds l :
  let m := sumContributions l in
  AllOps m = Z.of_nat (length l)
  /\ countersBelow (Z.of_nat (length l)) m
  /\ untouched_zero m.
Proof.
  induction l as [|x l IH]; simpl.
  - unfold countersBelow, untouched_zero. simpl. lia.
  - destruct IH as (Hall & (Hsr & Hsw & Hal & Hio) & (Hmr & Hmw & Hfo)).
    pose proof (classContribution_bounds (classify (inst_Op x))) as Hc.
    simpl in Hc. fold (contribution (inst_Op x)) in Hc.
    unfold countersBelow, untouched_zero, addMetrics. simpl.
    lia.
Qed.

Lemma instrRange_length l a b :
  (a <= b <= length l)%nat -> length (instrRange l a b) = (b - a)%nat.
Proof.
  intros H. unfold instrRange.
  rewrite length_take, length_drop. lia.
Qed.

Lemma instrRange_extend l a n x :
  (a <= n)%nat -> l !! n = Some x ->
  instrRange l a (S n) = instrRange l a n ++ [x].
Proof.
  intros Han Hx. unfold instrRange.
  replace (S n - a)%nat with (S (n - a)) by lia.
  apply take_S_r. rewrite lookup_drop.
  replace (a + (n - a))%nat with n by lia. exact Hx.
Qed.

Lemma instrRange_empty l a : instrRange l a a = [].
Proof. unfold instrRange. rewrite Nat.sub_diag. reflexivity. Qed.

End ScannerFacts.

(** ** One loop iteration *)

Section ScannerStep.

Context `{ops : Operators}.
Variable s : scanner.
Variable targets : gset Z.

Lemma scanStep_reject st i x :
  disqualified s targets st.2 x = true ->
  scanStep s targets st i x = (emit st, reset st.2).
Proof.
  destruct st as [fin inP]. unfold disqualified, scanStep, emit. simpl.
  intros ->. reflexivity.
Qed.

Lemma scanStep_accept st i x :
  disqualified s targets st.2 x = false ->
  scanStep s targets st i x =
    (st.1,
     {| cand_Start :=
          if AllOps (cand_Metrics st.2) =? 0
          then GoInt.uint (inst_Start x) else cand_Start st.2;
        cand_End :=
          GoInt.uint (GoInt.uint (inst_Start x)
                      + GoInt.uint (inst_Size x));
        cand_StartInstruction :=
          if AllOps (cand_Metrics st.2) =? 0
          then i else cand_StartInstruction st.2;
        cand_EndInstruction := GoInt.int (i + 1);
        cand_Metrics := countOp (inst_Op x) (cand_Metrics st.2) |}).
Proof.
  destruct st as [fin inP]. unfold disqualified, scanStep. simpl.
  intros ->. reflexivity.
Qed.

(** An accepted instruction opens the run [[n, n+1)] when the
    accumulator is empty. *)
Lemma accept_opens l n fin inP x :
  go_slice l -> l !! n = Some x ->
  cand_Metrics inP = zeroMetrics ->
  disqualified s targets inP x = false ->
  let st' := scanStep s targets (fin, inP) (Z.of_nat n) x in
  st'.1 = fin /\ describes l st'.2 n (S n).
Proof.
  intros Hl Hx Hz Hd st'. subst st'.
  pose proof (lookup_lt_Some _ _ _ Hx) as Hn.
  rewrite (scanStep_accept (fin, inP)) by exact Hd. simpl.
  split; [reflexivity|].
  rewrite Hz. simpl.
  unfold describes. simpl.
  unfold go_slice, GoInt.int_max in Hl.
  repeat split.
  - lia.
  - lia.
  - rewrite int_id; [lia|].
    unfold GoInt.is_int, GoInt.int_min, GoInt.int_max. lia.
  - exists x. auto.
  - exists x. rewrite Nat.sub_0_r. auto.
  - rewrite (instrRange_extend l n n x) by (lia || assumption).
    rewrite instrRange_empty. simpl. rewrite addMetrics_zero_l.
    rewrite (countOp_contribution 0);
      [apply addMetrics_zero_l | unfold GoInt.int_max; lia |].
    unfold countersBelow. simpl. lia.
Qed.

(** An accepted instruction extends the run [[a, n)] to [[a, n+1)]. *)
Lemma accept_extends l a n fin inP x :
  go_slice l -> l !! n = Some x ->
  describes l inP a n ->
  disqualified s targets inP x = false ->
  let st' := scanStep s targets (fin, inP) (Z.of_nat n) x in
  st'.1 = fin /\ describes l st'.2 a (S n).
Proof.
  intros Hl Hx (Hab & Hsi & Hei & Hst & Hen & Hm) Hd st'. subst st'.
  pose proof (lookup_lt_Some _ _ _ Hx) as Hn.
  rewrite (scanStep_accept (fin, inP)) by exact Hd. simpl.
  split; [reflexivity|].
  pose proof (sumContributions_bounds (instrRange l a n)) as (Hall & Hb & _).
  rewrite instrRange_length in Hall, Hb by lia.
  unfold go_slice, GoInt.int_max in Hl.
  assert ((AllOps (cand_Metrics inP) =? 0) = false) as ->.
  { rewrite Hm, Hall. apply Z.eqb_neq. lia. }
  unfold describes. simpl.
  repeat split.
  - lia.
  - lia.
  - exact Hsi.
  - rewrite int_id; [lia|].
    unfold GoInt.is_int, GoInt.int_min, GoInt.int_max. lia.
  - exact Hst.
  - exists x. rewrite Nat.sub_0_r. auto.
  - rewrite (instrRange_extend l a n x) by (lia || assumption).
    rewrite sumContributions_snoc, Hm.
    apply (countOp_contribution (Z.of_nat (n - a))); [|exact Hb].
    unfold GoInt.int_max. lia.
Qed.

(** The accumulator is emitted exactly when it holds a run of more
    than two instructions. *)
Lemma emit_describes l a n fin inP :
  describes l inP a n ->
  emit (fin, inP) = if decide (a + 3 <= n)%nat then fin ++ [inP] else fin.
Proof.
  intros (Hab & Hsi & Hei & Hst & Hen & Hm). unfold emit.
  pose proof (sumContributions_bounds (instrRange l a n)) as (Hall & _).
  rewrite instrRange_length in Hall by lia.
  rewrite Hm, Hall.
  destruct (decide (a + 3 <= n)%nat) as [H|H].
  - assert ((2 <? Z.of_nat (n - a)) = true) as ->; [|reflexivity].
    apply Z.ltb_lt. lia.
  - assert ((2 <? Z.of_nat (n - a)) = false) as ->; [|reflexivity].
    apply Z.ltb_ge. lia.
Qed.

Lemma emit_empty fin inP :
  cand_Metrics inP = zeroMetrics -> emit (fin, inP) = fin.
Proof. intros H. unfold emit. rewrite H. reflexivity. Qed.

End ScannerStep.

(** ** The loop invariant *)

Section ScannerInvariant.

Context `{ops : Operators}.
Variable s : scanner.
Variable targets : gset Z.

Lemma scanInv_init l : scanInv l 0 ([], zeroCandidate).
Proof.
  exists 0%nat. simpl. repeat split.
  - lia.
  - constructor.
  - constructor.
  - left. auto.
Qed.

Lemma finished_weaken l (lo lo' : nat) fin :
  (lo <= lo')%nat ->
  Forall (fun c => exists a b, describes l c a b
                               /\ (a + 3 <= b)%nat /\ (b < lo)%nat) fin ->
  Forall (fun c => exists a b, describes l c a b
                               /\ (a + 3 <= b)%nat /\ (b < lo')%nat) fin.
Proof.
  intros Hle Hfin. eapply Forall_impl; [exact Hfin|].
  intros c (a & b & Hd & H3 & Hb). exists a, b.
  split; [exact Hd | lia].
Qed.

Lemma finished_before l lo n fin c :
  Forall (fun c => exists a b, describes l c a b
                               /\ (a + 3 <= b)%nat /\ (b < lo)%nat) fin ->
  describes l c lo n ->
  Forall (fun c' => before_instr c' c) fin.
Proof.
  intros Hfin (_ & Hsi & _). eapply Forall_impl; [exact Hfin|].
  intros c' (a & b & (_ & _ & Hei & _) & _ & Hb).
  unfold before_instr. lia.
Qed.

Lemma scanInv_step l n st x :
  go_slice l -> l !! n = Some x ->
  scanInv l n st ->
  scanInv l (S n) (scanStep s targets st (Z.of_nat n) x).
Proof.
  intros Hl Hx (lo & Hlo & Hfin & Hsorted & Hacc).
  destruct st as [fin inP]. cbn [fst snd] in *.
  destruct (disqualified s targets inP x) eqn:Hd.
  - (* the instruction ends the run *)
    rewrite (scanStep_reject s targets (fin, inP)) by exact Hd.
    exists (S n). cbn [fst snd].
    split; [lia|].
    assert (cand_Metrics (reset inP) = zeroMetrics) as Hz' by reflexivity.
    destruct Hacc as [[-> Hz] | Hrun].
    + rewrite emit_empty by exact Hz.
      split; [eapply finished_weaken; [|exact Hfin]; lia|].
      split; [exact Hsorted|]. left. auto.
    + rewrite (emit_describes l lo n) by exact Hrun.
      destruct (decide (lo + 3 <= n)%nat) as [H3|H3].
      * split; [|split; [|left; auto]].
        -- apply Forall_app. split.
           ++ eapply finished_weaken; [|exact Hfin]. lia.
           ++ constructor; [|constructor].
              exists lo, n. split; [exact Hrun | lia].
        -- apply StronglySorted_app. split; [|split].
           ++ intros c1 c2 H1 H2. apply list_elem_of_singleton in H2.
              subst c2.
              pose proof (finished_before l lo n fin inP Hfin Hrun) as Hb.
              rewrite Forall_forall in Hb. auto.
           ++ exact Hsorted.
           ++ repeat constructor.
      * split; [eapply finished_weaken; [|exact Hfin]; lia|].
        split; [exact Hsorted|]. left. auto.
  - (* the instruction joins the run *)
    destruct Hacc as [[-> Hz] | Hrun].
    + destruct (accept_opens s targets l n fin inP x Hl Hx Hz Hd)
        as [Hfst Hdesc].
      exists n. rewrite Hfst.
      split; [lia|]. split; [exact Hfin|]. split; [exact Hsorted|].
      right. exact Hdesc.
    + destruct (accept_extends s targets l lo n fin inP x Hl Hx Hrun Hd)
        as [Hfst Hdesc].
      exists lo. rewrite Hfst.
      split; [lia|]. split; [exact Hfin|]. split; [exact Hsorted|].
      right. exact Hdesc.
Qed.

(** Induction principle of the [range] loop: a property of the state
    indexed by the number of instructions consumed. *)
Lemma scanLoop_ind (P : nat -> scanState -> Prop) l :
  (forall n st x, l !! n = Some x -> P n st ->
                  P (S n) (scanStep s targets st (Z.of_nat n) x)) ->
  forall rest n st,
    (n <= length l)%nat -> drop n l = rest -> P n st ->
    P (length l) (scanLoop s targets rest (Z.of_nat n) st).
Proof.
  intros Hstep.
  induction rest as [|x rest IH]; intros n st Hn Hdrop Hinv; simpl.
  - assert (n = length l) as <-; [|exact Hinv].
    apply (f_equal length) in Hdrop. rewrite length_drop in Hdrop.
    simpl in Hdrop. lia.
  - assert (l !! n = Some x) as Hx.
    { rewrite <- (Nat.add_0_r n), <- lookup_drop, Hdrop. reflexivity. }
    replace (Z.of_nat n + 1) with (Z.of_nat (S n)) by lia.
    apply IH.
    + apply lookup_lt_Some in Hx. lia.
    + erewrite drop_S in Hdrop by exact Hx. congruence.
    + apply Hstep; assumption.
Qed.

Lemma scanInv_loop l :
  go_slice l ->
  scanInv l (length l) (scanLoop s targets l 0 ([], zeroCandidate)).
Proof.
  intros Hl.
  apply (scanLoop_ind (scanInv l) l) with (n := 0%nat).
  - intros n st x Hx Hinv. apply scanInv_step; assumption.
  - lia.
  - reflexivity.
  - apply scanInv_init.
Qed.

End ScannerInvariant.

(** ** What [ScanFunc] returns *)

Section ScannerResults.

Context `{ops : Operators}.
Variable s : scanner.

(** Every returned candidate is a run of at least three instructions of
    the stream, and the candidates are ordered by instruction index. *)
Lemma ScanFunc_runs bytecode meta :
  go_slice (Instructions meta) ->
  let out := (ScanFunc s bytecode meta).1 in
  Forall (fun c => exists a b, describes (Instructions meta) c a b
                               /\ (a + 3 <= b)%nat) out
  /\ StronglySorted before_instr out.
Proof.
  intros Hl out. subst out. unfold ScanFunc. cbn [fst].
  pose proof (scanInv_loop s (InboundTargets meta) (Instructions meta) Hl)
    as Hinv.
  destruct (scanLoop s (InboundTargets meta) (Instructions meta) 0
              ([], zeroCandidate)) as [fin inP].
  destruct Hinv as (lo & Hlo & Hfin & Hsorted & Hacc).
  cbn [fst snd] in *.
  assert (Forall (fun c => exists a b,
                    describes (Instructions meta) c a b
                    /\ (a + 3 <= b)%nat) fin) as Hfin'.
  { eapply Forall_impl; [exact Hfin|].
    intros c (a & b & Hd & H3 & _). eauto. }
  destruct Hacc as [[-> Hz] | Hrun].
  - rewrite emit_empty by exact Hz. auto.
  - rewrite (emit_describes _ lo (length (Instructions meta)))
      by exact Hrun.
    destruct (decide (lo + 3 <= length (Instructions meta))%nat); [|auto].
    split.
    + apply Forall_app. split; [exact Hfin'|].
      constructor; [|constructor]. eauto.
    + apply StronglySorted_app. split; [|split].
      * intros c1 c2 H1 H2. apply list_elem_of_singleton in H2. subst c2.
        pose proof (finished_before _ lo _ fin inP Hfin Hrun) as Hb.
        rewrite Forall_forall in Hb. auto.
      * exact Hsorted.
      * repeat constructor.
Qed.

(** The three counters outside the table stay zero, with no assumption
    on the input. *)
Lemma countOp_untouched op m :
  untouched_zero m -> untouched_zero (countOp op m).
Proof.
  rewrite countOp_classify. unfold untouched_zero.
  destruct m, (classify op); simpl; auto.
Qed.

Lemma scanStep_untouched targets st i x :
  Forall (fun c => untouched_zero (cand_Metrics c)) st.1 ->
  untouched_zero (cand_Metrics st.2) ->
  let st' := scanStep s targets st i x in
  Forall (fun c => untouched_zero (cand_Metrics c)) st'.1
  /\ untouched_zero (cand_Metrics st'.2).
Proof.
  intros Hfin Hacc st'. subst st'.
  destruct (disqualified s targets st.2 x) eqn:Hd.
  - rewrite scanStep_reject by exact Hd. cbn [fst snd].
    split; [|repeat split].
    destruct st as [fin inP]. unfold emit. cbn [fst snd] in *.
    destruct (2 <? _); [|exact Hfin].
    apply Forall_app. split; [exact Hfin|]. repeat constructor; apply Hacc.
  - rewrite scanStep_accept by exact Hd. cbn [fst snd cand_Metrics].
    split; [exact Hfin|]. apply countOp_untouched, Hacc.
Qed.

Lemma scanLoop_untouched targets l i st :
  Forall (fun c => untouched_zero (cand_Metrics c)) st.1 ->
  untouched_zero (cand_Metrics st.2) ->
  let st' := scanLoop s targets l i st in
  Forall (fun c => untouched_zero (cand_Metrics c)) st'.1
  /\ untouched_zero (cand_Metrics st'.2).
Proof.
  revert i st. induction l as [|x l IH]; intros i st Hfin Hacc; simpl.
  - auto.
  - destruct (scanStep_untouched targets st i x Hfin Hacc) as [H1 H2].
    apply IH; assumption.
Qed.

End ScannerResults.

(** ** The metrics table, entry by entry *)

Lemma StronglySorted_lookup {A} (R : A -> A -> Prop) (l : list A) i j x y :
  StronglySorted R l -> (i < j)%nat ->
  l !! i = Some x -> l !! j = Some y -> R x y.
Proof.
  intros Hs Hij Hi Hj.
  rewrite <- (take_drop j l) in Hs.
  eapply StronglySorted_app_1_elem_of; [exact Hs| |].
  - apply list_elem_of_lookup. exists i.
    rewrite lookup_take_lt by exact Hij. exact Hi.
  - apply list_elem_of_lookup. exists 0%nat.
    rewrite lookup_drop, Nat.add_0_r. exact Hj.
Qed.

Lemma StronglySorted_refine {A} (P : A -> Prop) (R1 R2 : A -> A -> Prop)
    (l : list A) :
  (forall x y, P x -> P y -> R1 x y -> R2 x y) ->
  Forall P l -> StronglySorted R1 l -> StronglySorted R2 l.
Proof.
  intros HR HP Hs. induction Hs as [|x l Hs IH Hx]; [constructor|].
  apply Forall_cons in HP as [Hpx HP].
  constructor; [auto|].
  rewrite Forall_forall in *. intros y Hy. apply HR; auto.
Qed.

Section MetricsTable.

Context `{ops : Operators}.

Lemma lookupClass_in k l rest op :
  op ∈ l -> lookupClass op (((fun o => (o, k)) <$> l) ++ rest) = k.
Proof.
  induction l as [|a l IH]; intros Hin.
  - apply elem_of_nil in Hin. contradiction.
  - simpl. destruct (Z.eqb_spec op a) as [|Hne]; [reflexivity|].
    apply IH. apply elem_of_cons in Hin as [|]; [contradiction|assumption].
Qed.

Lemma lookupClass_notin k l rest op :
  op ∉ l ->
  lookupClass op (((fun o => (o, k)) <$> l) ++ rest) = lookupClass op rest.
Proof.
  induction l as [|a l IH]; intros Hin; [reflexivity|].
  simpl. apply not_elem_of_cons in Hin as [Hne Hin].
  destruct (Z.eqb_spec op a) as [|_]; [contradiction|]. auto.
Qed.

Lemma table_distinct :
  NoDup (loadOps ++ storeOps ++ eqzOps ++ binaryOps).
Proof. exact ops_distinct. Qed.

Lemma classify_load op : op ∈ loadOps -> classify op = ConstOrLocalRead.
Proof. apply lookupClass_in. Qed.

Lemma classify_store op : op ∈ storeOps -> classify op = LocalWrite.
Proof.
  intros Hin. pose proof table_distinct as Hnd.
  apply NoDup_app in Hnd as (_ & H1 & _).
  unfold classify, classTable.
  rewrite lookupClass_notin; [apply lookupClass_in, Hin|].
  intros Hl. apply (H1 op Hl). apply elem_of_app. left. exact Hin.
Qed.

Lemma classify_eqz op : op ∈ eqzOps -> classify op = CompareToZero.
Proof.
  intros Hin. pose proof table_distinct as Hnd.
  apply NoDup_app in Hnd as (_ & H1 & Hnd).
  apply NoDup_app in Hnd as (_ & H2 & _).
  assert (op ∈ eqzOps ++ binaryOps) as Hin2
    by (apply elem_of_app; left; exact Hin).
  unfold classify, classTable.
  rewrite lookupClass_notin; [rewrite lookupClass_notin|].
  - apply lookupClass_in, Hin.
  - intros Hl. exact (H2 op Hl Hin2).
  - intros Hl. apply (H1 op Hl). apply elem_of_app. right. exact Hin2.
Qed.

Lemma classify_binary op : op ∈ binaryOps -> classify op = BinaryInteger.
Proof.
  intros Hin. pose proof table_distinct as Hnd.
  apply NoDup_app in Hnd as (_ & H1 & Hnd).
  apply NoDup_app in Hnd as (_ & H2 & Hnd).
  apply NoDup_app in Hnd as (_ & H3 & _).
  assert (op ∈ eqzOps ++ binaryOps) as Hin2
    by (apply elem_of_app; right; exact Hin).
  assert (op ∈ storeOps ++ eqzOps ++ binaryOps) as Hin3
    by (apply elem_of_app; right; exact Hin2).
  unfold classify, classTable.
  rewrite lookupClass_notin; [rewrite lookupClass_notin;
                              [rewrite lookupClass_notin|]|].
  - rewrite <- (app_nil_r (_ <$> binaryOps)). apply lookupClass_in, Hin.
  - intros Hl. exact (H3 op Hl Hin).
  - intros Hl. exact (H2 op Hl Hin2).
  - intros Hl. exact (H1 op Hl Hin3).
Qed.

Lemma classify_other op :
  op ∉ loadOps ++ storeOps ++ eqzOps ++ binaryOps ->
  classify op = Unclassified.
Proof.
  intros Hin. unfold classify, classTable.
  rewrite !not_elem_of_app in Hin. destruct Hin as (H1 & H2 & H3 & H4).
  rewrite !lookupClass_notin by assumption.
  rewrite <- (app_nil_r (_ <$> binaryOps)).
  rewrite lookupClass_notin by assumption. reflexivity.
Qed.

(** The table of the [switch], read off opcode by opcode. *)
Lemma contribution_table :
  (forall op, op ∈ loadOps -> contribution op = mkMetrics 0 0 0 1 1 1 0)
  /\ (forall op, op ∈ storeOps ->
                 contribution op = mkMetrics 0 0 1 0 1 1 0)
  /\ (forall op, op ∈ eqzOps -> contribution op = mkMetrics 0 0 1 1 1 1 0)
  /\ (forall op, op ∈ binaryOps ->
                 contribution op = mkMetrics 0 0 2 1 1 1 0)
  /\ (forall op, op ∉ loadOps ++ storeOps ++ eqzOps ++ binaryOps ->
                 contribution op = mkMetrics 0 0 0 0 1 0 0).
Proof.
  unfold contribution. repeat split; intros op Hop.
  - rewrite classify_load by exact Hop. reflexivity.
  - rewrite classify_store by exact Hop. reflexivity.
  - rewrite classify_eqz by exact Hop. reflexivity.
  - rewrite classify_binary by exact Hop. reflexivity.
  - rewrite classify_other by exact Hop. reflexivity.
Qed.

End MetricsTable.

(** ** Properties of [ScanFunc] *)

Section ScanFuncProperties.

Context `{ops : Operators}.
Variable s : scanner.

(** C10: in every candidate returned by [ScanFunc] the counters
    [MemoryReads], [MemoryWrites] and [FloatOps] are zero. *)
Theorem ScanFunc_untouched_counters bytecode meta :
  Forall (fun c => MemoryReads (cand_Metrics c) = 0
                   /\ MemoryWrites (cand_Metrics c) = 0
                   /\ FloatOps (cand_Metrics c) = 0)
         (ScanFunc s bytecode meta).1.
Proof.
  unfold ScanFunc. cbn [fst].
  destruct (scanLoop_untouched s (InboundTargets meta) (Instructions meta)
              0 ([], zeroCandidate)) as [Hfin Hacc].
  - constructor.
  - repeat split.
  - destruct (scanLoop _ _ _ _ _) as [fin inP]. unfold emit.
    cbn [fst snd] in *.
    destruct (2 <? _); [|exact Hfin].
    apply Forall_app. split; [exact Hfin|]. repeat constructor; apply Hacc.
Qed.

(** C9: the result of [ScanFunc] does not depend on the byte slice it
    is given: any two slices yield the same candidates and error. *)
Theorem ScanFunc_ignores_bytecode meta (b1 b2 : list Z) :
  ScanFunc s b1 meta = ScanFunc s b2 meta.
Proof. reflexivity. Qed.

(** C8: [ScanFunc] returns a nil error on every input, and on an empty
    instruction list it returns no candidate and no error. *)
Theorem ScanFunc_never_fails bytecode :
  (forall meta, (ScanFunc s bytecode meta).2 = None)
  /\ (forall targets, ScanFunc s bytecode (mkMeta [] targets) = ([], None)).
Proof. split; reflexivity. Qed.

(** What the [switch] and [AllOps++] add for one instruction, starting
    from zero counters, is the table entry of its opcode. *)
Lemma contribution_countOp op : contribution op = countOp op zeroMetrics.
Proof.
  rewrite (countOp_contribution 0 op zeroMetrics).
  - rewrite addMetrics_zero_l. reflexivity.
  - unfold GoInt.int_max. lia.
  - unfold countersBelow. simpl. lia.
Qed.

Lemma sumContributions_countOp l :
  sumContributions l
  = foldr (fun x acc => addMetrics acc (countOp (inst_Op x) zeroMetrics))
          zeroMetrics l.
Proof.
  induction l as [|x l IH]; [reflexivity|].
  simpl. rewrite IH, contribution_countOp. reflexivity.
Qed.

(** C4: the [Metrics] of every returned candidate are the sum, over the
    instructions with index in [[StartInstruction, EndInstruction)], of
    what the [switch] and [AllOps++] of the loop body add for one
    instruction of that opcode. That amount is fixed (the body adds it to
    any counters that do not wrap) and is, opcode by opcode: one integer
    op and one stack write for [I64Const] and [GetLocal]; one integer op
    and one stack read for [SetLocal]; one integer op, one stack read and
    one stack write for [I64Eqz]; one integer op, two stack reads and one
    stack write for the binary integer opcodes; nothing for any other
    opcode; and in every case one more in [AllOps]. *)
Theorem ScanFunc_metrics_sum bytecode meta :
  go_slice (Instructions meta) ->
  Forall (fun c =>
            cand_Metrics c =
              foldr (fun x acc =>
                       addMetrics acc (countOp (inst_Op x) zeroMetrics))
                    zeroMetrics
                    (instrRange (Instructions meta)
                       (Z.to_nat (cand_StartInstruction c))
                       (Z.to_nat (cand_EndInstruction c))))
         (ScanFunc s bytecode meta).1
  /\ (forall op m k,
        k < GoInt.int_max -> countersBelow k m ->
        countOp op m = addMetrics m (countOp op zeroMetrics))
  /\ countOp I64Const zeroMetrics = mkMetrics 0 0 0 1 1 1 0
  /\ countOp GetLocal zeroMetrics = mkMetrics 0 0 0 1 1 1 0
  /\ countOp SetLocal zeroMetrics = mkMetrics 0 0 1 0 1 1 0
  /\ countOp I64Eqz zeroMetrics = mkMetrics 0 0 1 1 1 1 0
  /\ Forall (fun op => countOp op zeroMetrics = mkMetrics 0 0 2 1 1 1 0)
        [I64Eq; I64Ne; I64LtU; I64GtU; I64LeU; I64GeU;
         I64Shl; I64ShrU; I64ShrS;
         I64DivU; I64RemU; I64DivS; I64RemS;
         I64Add; I64Sub; I64Mul; I64And; I64Or; I64Xor]
  /\ (forall op,
        op ∉ [I64Const; GetLocal; SetLocal; I64Eqz;
              I64Eq; I64Ne; I64LtU; I64GtU; I64LeU; I64GeU;
              I64Shl; I64ShrU; I64ShrS;
              I64DivU; I64RemU; I64DivS; I64RemS;
              I64Add; I64Sub; I64Mul; I64And; I64Or; I64Xor] ->
        countOp op zeroMetrics = mkMetrics 0 0 0 0 1 0 0)
  /\ (forall op, AllOps (countOp op zeroMetrics) = 1).
Proof.
  intros Hl.
  destruct contribution_table as (Hload & Hstore & Heqz & Hbin & Hother).
  split; [|split; [|repeat split]].
  - destruct (ScanFunc_runs s bytecode meta Hl) as [Hruns _].
    eapply Forall_impl; [exact Hruns|].
    intros c (a & b & (_ & Hsi & Hei & _ & _ & Hm) & _).
    rewrite Hsi, Hei, !Nat2Z.id, <- sumContributions_countOp. exact Hm.
  - intros op m k Hk Hm. rewrite <- contribution_countOp.
    exact (countOp_contribution k op m Hk Hm).
  - rewrite <- contribution_countOp.
    apply Hload. unfold loadOps. apply elem_of_cons. left. reflexivity.
  - rewrite <- contribution_countOp.
    apply Hload. unfold loadOps. apply elem_of_cons. right.
    apply elem_of_cons. left. reflexivity.
  - rewrite <- contribution_countOp.
    apply Hstore. apply list_elem_of_singleton. reflexivity.
  - rewrite <- contribution_countOp.
    apply Heqz. apply list_elem_of_singleton. reflexivity.
  - apply Forall_forall. intros op Hop. rewrite <- contribution_countOp.
    apply Hbin. exact Hop.
  - intros op Hop. rewrite <- contribution_countOp.
    apply Hother. exact Hop.
  - intros op. rewrite <- contribution_countOp.
    unfold contribution. destruct (classify op); reflexivity.
Qed.

End ScanFuncProperties.

Lemma ScanFunc_metrics_sum_witness :
  go_slice (Instructions Samples.twoRuns)
  /\ (@ScanFunc wasmOperators Samples.backend [] Samples.twoRuns).1
     = [mkCand 0 5 0 3 (mkMetrics 0 0 2 3 3 3 0);
        mkCand 7 12 4 7 (mkMetrics 0 0 2 3 3 3 0)]
  /\ Forall (fun c =>
               cand_Metrics c =
                 foldr (fun x acc =>
                          addMetrics acc
                            (@countOp wasmOperators (inst_Op x) zeroMetrics))
                       zeroMetrics
                       (instrRange (Instructions Samples.twoRuns)
                          (Z.to_nat (cand_StartInstruction c))
                          (Z.to_nat (cand_EndInstruction c))))
            (@ScanFunc wasmOperators Samples.backend [] Samples.twoRuns).1
  /\ @countOp wasmOperators 0x7c (mkMetrics 0 0 0 2 2 2 0)
     = mkMetrics 0 0 2 3 3 3 0.
Proof.
  assert (go_slice (Instructions Samples.twoRuns)) as H.
  { unfold go_slice, GoInt.int_max. simpl. lia. }
  split; [exact H|]. split; [vm_compute; reflexivity|].
  destruct (@ScanFunc_metrics_sum wasmOperators Samples.backend []
              Samples.twoRuns H) as (Hsum & Hadd & _).
  split; [exact Hsum|].
  rewrite (Hadd 0x7c (mkMetrics 0 0 0 2 2 2 0) 2).
  - vm_compute. reflexivity.
  - unfold GoInt.int_max. lia.
  - unfold countersBelow. simpl. lia.
Defined.


(** ** Shape and order of the candidates *)

Section CandidateOrder.

Context `{ops : Operators}.
Variable s : scanner.

Lemma describes_offsets l c a b :
  Forall go_inst l -> Forall nonneg_inst l ->
  describes l c a b ->
  exists x y,
    l !! a = Some x /\ l !! (b - 1)%nat = Some y
    /\ cand_Start c = inst_Start x
    /\ cand_End c = inst_Start y + inst_Size y.
Proof.
  intros Hgo Hnn (_ & _ & _ & (x & Hx & Hs) & (y & Hy & He) & _).
  exists x, y.
  pose proof (Forall_lookup_1 _ _ _ _ Hgo Hx) as [Hgx _].
  pose proof (Forall_lookup_1 _ _ _ _ Hnn Hx) as [Hnx _].
  pose proof (Forall_lookup_1 _ _ _ _ Hgo Hy) as Hgy.
  pose proof (Forall_lookup_1 _ _ _ _ Hnn Hy) as Hny.
  repeat split; try assumption.
  - rewrite Hs. apply uint_nonneg_int; assumption.
  - rewrite He. apply end_offset_exact; assumption.
Qed.

(** C6: every returned candidate has [StartInstruction < EndInstruction]
    and spans at least three instructions, and on metadata that meets the
    scanner's input contract (offsets and sizes are non-negative Go
    integers and the offsets do not decrease along the stream) it has
    [Start <= End]. *)
Theorem ScanFunc_candidate_shape bytecode meta :
  go_slice (Instructions meta) ->
  Forall (fun c => cand_StartInstruction c < cand_EndInstruction c
                   /\ cand_EndInstruction c - cand_StartInstruction c >= 3)
         (ScanFunc s bytecode meta).1
  /\ (Forall go_inst (Instructions meta) ->
      Forall nonneg_inst (Instructions meta) ->
      offsets_nondecreasing (Instructions meta) ->
      Forall (fun c => cand_Start c <= cand_End c)
             (ScanFunc s bytecode meta).1).
Proof.
  intros Hl. destruct (ScanFunc_runs s bytecode meta Hl) as [Hruns _].
  split.
  - eapply Forall_impl; [exact Hruns|].
    intros c (a & b & (_ & Hsi & Hei & _) & H3). lia.
  - intros Hgo Hnn Hmono.
    eapply Forall_impl; [exact Hruns|].
    intros c (a & b & Hd & H3).
    destruct (describes_offsets _ c a b Hgo Hnn Hd)
      as (x & y & Hx & Hy & -> & ->).
    pose proof (StronglySorted_lookup _ _ a (b - 1) x y Hmono
                  ltac:(lia) Hx Hy) as Hxy.
    pose proof (Forall_lookup_1 _ _ _ _ Hnn Hy) as [_ Hsz].
    simpl in Hxy. lia.
Qed.

(** C5, amended: when offsets and sizes are non-negative, the offsets
    increase along the stream and no instruction extends past the start
    of a later one, the returned candidates do not overlap and are in
    strictly ascending order: of any two of them the earlier one ends, in
    instruction index, before the later one starts, has the smaller start
    offset, and has an end offset at most the start offset of the later
    one. *)
Theorem ScanFunc_candidates_ordered bytecode meta :
  go_slice (Instructions meta) ->
  Forall go_inst (Instructions meta) ->
  Forall nonneg_inst (Instructions meta) ->
  laid_out (Instructions meta) ->
  StronglySorted (fun c1 c2 => before_instr c1 c2 /\ before_bytes c1 c2)
                 (ScanFunc s bytecode meta).1.
Proof.
  intros Hl Hgo Hnn Hlay.
  destruct (ScanFunc_runs s bytecode meta Hl) as [Hruns Hsorted].
  eapply StronglySorted_refine; [|exact Hruns|exact Hsorted].
  intros c1 c2 (a1 & b1 & Hd1 & H31) (a2 & b2 & Hd2 & H32) Hbefore.
  split; [exact Hbefore|].
  assert (b1 < a2)%nat as Hgap.
  { destruct Hd1 as (_ & _ & He1 & _), Hd2 as (_ & Hs2 & _).
    unfold before_instr in Hbefore. lia. }
  destruct (describes_offsets _ c1 a1 b1 Hgo Hnn Hd1)
    as (x1 & y1 & Hx1 & Hy1 & Hs1 & He1).
  destruct (describes_offsets _ c2 a2 b2 Hgo Hnn Hd2)
    as (x2 & y2 & Hx2 & Hy2 & Hs2 & He2).
  pose proof (StronglySorted_lookup _ _ a1 a2 x1 x2 Hlay
                ltac:(lia) Hx1 Hx2) as [Hlt _].
  pose proof (StronglySorted_lookup _ _ (b1 - 1) a2 y1 x2 Hlay
                ltac:(lia) Hy1 Hx2) as [_ Hle].
  unfold before_bytes. rewrite Hs1, Hs2, He1. split; assumption.
Qed.

End CandidateOrder.

Lemma ScanFunc_candidate_shape_witness :
  go_slice (Instructions Samples.twoRuns)
  /\ Forall (fun c => cand_StartInstruction c < cand_EndInstruction c
                      /\ cand_EndInstruction c - cand_StartInstruction c >= 3
                      /\ cand_Start c <= cand_End c)
            (@ScanFunc wasmOperators Samples.backend [] Samples.twoRuns).1.
Proof.
  assert (go_slice (Instructions Samples.twoRuns)) as H.
  { unfold go_slice, GoInt.int_max. simpl. lia. }
  split; [exact H|].
  destruct (@ScanFunc_candidate_shape wasmOperators Samples.backend []
              Samples.twoRuns H) as [Hidx Hoff].
  assert (Forall go_inst (Instructions Samples.twoRuns)) as Hgo.
  { apply (bool_decide_unpack _). vm_compute. reflexivity. }
  assert (Forall nonneg_inst (Instructions Samples.twoRuns)) as Hnn.
  { apply (bool_decide_unpack _). vm_compute. reflexivity. }
  assert (offsets_nondecreasing (Instructions Samples.twoRuns)) as Hmono.
  { apply (bool_decide_unpack _). vm_compute. reflexivity. }
  specialize (Hoff Hgo Hnn Hmono).
  rewrite Forall_forall in *. intros c Hc.
  destruct (Hidx c Hc) as [H1 H2]. specialize (Hoff c Hc). auto.
Defined.

(** The contract on the offsets is needed: on a stream listed with
    decreasing offsets the one returned candidate starts at offset 10 and
    ends at offset 2. *)
Lemma ScanFunc_start_after_end :
  exists c,
    (@ScanFunc wasmOperators Samples.backend [] Samples.decreasing).1 = [c]
    /\ cand_Start c = 10 /\ cand_End c = 2
    /\ ~ cand_Start c <= cand_End c.
Proof.
  exists (mkCand 10 2 0 3 (mkMetrics 0 0 0 3 3 3 0)).
  split; [vm_compute; reflexivity|].
  simpl. repeat split. lia.
Qed.

Lemma ScanFunc_candidates_ordered_witness :
  (go_slice (Instructions Samples.twoRuns)
   /\ Forall go_inst (Instructions Samples.twoRuns)
   /\ Forall nonneg_inst (Instructions Samples.twoRuns)
   /\ laid_out (Instructions Samples.twoRuns))
  /\ StronglySorted (fun c1 c2 => before_instr c1 c2 /\ before_bytes c1 c2)
       (@ScanFunc wasmOperators Samples.backend [] Samples.twoRuns).1.
Proof.
  assert (go_slice (Instructions Samples.twoRuns)) as H.
  { unfold go_slice, GoInt.int_max. simpl. lia. }
  assert (Forall go_inst (Instructions Samples.twoRuns)) as Hgo.
  { apply (bool_decide_unpack _). vm_compute. reflexivity. }
  assert (Forall nonneg_inst (Instructions Samples.twoRuns)) as Hnn.
  { apply (bool_decide_unpack _). vm_compute. reflexivity. }
  assert (laid_out (Instructions Samples.twoRuns)) as Hlay.
  { apply (bool_decide_unpack _). vm_compute. reflexivity. }
  split; [auto|].
  exact (@ScanFunc_candidates_ordered wasmOperators Samples.backend []
           Samples.twoRuns H Hgo Hnn Hlay).
Defined.

(** Counterexample to C5 as stated: the offsets of this stream never
    decrease, yet its two candidates have the same start offset and the
    first one ends after the second one starts. *)
Lemma ScanFunc_same_offsets_overlap :
  offsets_nondecreasing (Instructions Samples.sameOffsets)
  /\ exists c1 c2,
       (@ScanFunc wasmOperators Samples.backend [] Samples.sameOffsets).1
       = [c1; c2]
       /\ ~ cand_Start c1 < cand_Start c2
       /\ ~ cand_End c1 <= cand_Start c2
       /\ ~ StronglySorted before_bytes [c1; c2].
Proof.
  split.
  - apply (bool_decide_unpack _). vm_compute. reflexivity.
  - exists (mkCand 0 1 0 3 (mkMetrics 0 0 2 3 3 3 0)),
           (mkCand 0 1 4 7 (mkMetrics 0 0 2 3 3 3 0)).
    split; [vm_compute; reflexivity|].
    simpl. split; [lia|]. split; [lia|].
    intros Hs. apply StronglySorted_cons in Hs as [Hall _].
    apply Forall_cons in Hall as [[Hlt _] _]. simpl in Hlt. lia.
Qed.


(** ** When an instruction ends a run *)

Section Disqualification.

Context `{ops : Operators}.
Variable s : scanner.
Variable targets : gset Z.

Lemma describes_AllOps l c a b :
  describes l c a b -> AllOps (cand_Metrics c) = Z.of_nat (b - a).
Proof.
  intros (Hab & _ & _ & _ & _ & Hm).
  pose proof (sumContributions_bounds (instrRange l a b)) as (Hall & _).
  rewrite instrRange_length in Hall by lia.
  rewrite Hm. exact Hall.
Qed.

Lemma accepted_when_empty c x :
  supported s (inst_Op x) = true -> AllOps (cand_Metrics c) = 0 ->
  disqualified s targets c x = false.
Proof.
  intros Hs Hz. unfold disqualified. rewrite Hs, Hz. simpl.
  apply andb_false_r.
Qed.

Lemma accepted_when_no_target c x :
  supported s (inst_Op x) = true -> inst_Start x ∉ targets ->
  disqualified s targets c x = false.
Proof.
  intros Hs Ht. unfold disqualified. rewrite Hs.
  rewrite bool_decide_eq_false_2 by exact Ht. reflexivity.
Qed.

Lemma rejected_when_unsupported c x :
  supported s (inst_Op x) = false -> disqualified s targets c x = true.
Proof. intros Hs. unfold disqualified. rewrite Hs. reflexivity. Qed.

Lemma rejected_when_target_inside c x :
  inst_Start x ∈ targets -> 0 < inst_Start x ->
  0 < AllOps (cand_Metrics c) ->
  disqualified s targets c x = true.
Proof.
  intros Ht Hpos Hrun. unfold disqualified.
  rewrite bool_decide_eq_true_2 by exact Ht.
  apply Z.ltb_lt in Hpos, Hrun. rewrite Hpos, Hrun.
  apply orb_true_r.
Qed.

(** C3: when every opcode is supported and no instruction after the
    first starts at an inbound target, [ScanFunc] returns exactly one
    candidate, spanning the whole function, if the stream has more than
    two instructions, and no candidate otherwise. *)
Theorem ScanFunc_whole_function bytecode l :
  go_slice l ->
  Forall (fun x => supported s (inst_Op x) = true) l ->
  (forall k x, l !! S k = Some x -> inst_Start x ∉ targets) ->
  ((2 < length l)%nat ->
   exists c, (ScanFunc s bytecode (mkMeta l targets)).1 = [c]
             /\ cand_StartInstruction c = 0
             /\ cand_EndInstruction c = Z.of_nat (length l)
             /\ describes l c 0 (length l))
  /\ ((length l <= 2)%nat ->
      (ScanFunc s bytecode (mkMeta l targets)).1 = []).
Proof.
  intros Hl Hsup Htargets.
  assert (let st := scanLoop s targets l 0 ([], zeroCandidate) in
          st.1 = []
          /\ ((length l = 0%nat /\ cand_Metrics st.2 = zeroMetrics)
              \/ describes l st.2 0 (length l))) as Hinv.
  { apply (scanLoop_ind s targets
             (fun n st => st.1 = []
                          /\ ((n = 0%nat /\ cand_Metrics st.2 = zeroMetrics)
                              \/ describes l st.2 0 n)) l)
      with (n := 0%nat); [|lia|reflexivity|auto].
    intros n [fin inP] x Hx [Hfin Hacc]. cbn [fst snd] in *. subst fin.
    pose proof (Forall_lookup_1 _ _ _ _ Hsup Hx) as Hsx. simpl in Hsx.
    destruct Hacc as [[-> Hz] | Hrun].
    - destruct (accept_opens s targets l 0 [] inP x Hl Hx Hz) as [H1 H2].
      { apply accepted_when_empty; [exact Hsx|]. rewrite Hz. reflexivity. }
      split; [exact H1|]. right. exact H2.
    - destruct n as [|k]; [destruct Hrun as ((Hlt & _) & _); lia|].
      destruct (accept_extends s targets l 0 (S k) [] inP x Hl Hx Hrun)
        as [H1 H2].
      { apply accepted_when_no_target; [exact Hsx|]. eapply Htargets, Hx. }
      split; [exact H1|]. right. exact H2. }
  unfold ScanFunc. cbn [fst Instructions InboundTargets].
  destruct (scanLoop s targets l 0 ([], zeroCandidate)) as [fin inP].
  cbn [fst snd] in Hinv. destruct Hinv as [-> Hacc].
  destruct Hacc as [[Hlen Hz] | Hrun].
  - rewrite emit_empty by exact Hz. split; [lia|reflexivity].
  - rewrite (emit_describes l 0 (length l)) by exact Hrun.
    destruct (decide (0 + 3 <= length l)%nat) as [H3|H3].
    + split; [|lia]. intros _. exists inP.
      pose proof Hrun as (_ & Hsi & Hei & _).
      split; [reflexivity|]. split; [exact Hsi|].
      split; [exact Hei | exact Hrun].
    + split; [lia|reflexivity].
Qed.

End Disqualification.

Lemma ScanFunc_whole_function_witness :
  (go_slice (Instructions Samples.entryTarget)
   /\ Forall (fun x => supported Samples.backend (inst_Op x) = true)
        (Instructions Samples.entryTarget)
   /\ (forall k x, Instructions Samples.entryTarget !! S k = Some x ->
                   inst_Start x ∉ InboundTargets Samples.entryTarget)
   /\ (2 < length (Instructions Samples.entryTarget))%nat)
  /\ exists c,
       (@ScanFunc wasmOperators Samples.backend [] Samples.entryTarget).1
       = [c]
       /\ cand_StartInstruction c = 0
       /\ cand_EndInstruction c = 5.
Proof.
  assert (go_slice (Instructions Samples.entryTarget)) as H.
  { unfold go_slice, GoInt.int_max. simpl. lia. }
  assert (Forall (fun x => supported Samples.backend (inst_Op x) = true)
            (Instructions Samples.entryTarget)) as Hsup.
  { repeat constructor. }
  assert (forall k x, Instructions Samples.entryTarget !! S k = Some x ->
                      inst_Start x ∉ InboundTargets Samples.entryTarget)
    as Htg.
  { intros k x Hx. simpl. rewrite elem_of_singleton.
    do 4 (destruct k as [|k]; [injection Hx as <-; discriminate|]).
    discriminate Hx. }
  assert (2 < length (Instructions Samples.entryTarget))%nat as Hlen.
  { simpl. lia. }
  split; [auto|].
  destruct (@ScanFunc_whole_function wasmOperators Samples.backend
              (InboundTargets Samples.entryTarget) []
              (Instructions Samples.entryTarget) H Hsup Htg) as [Hmany _].
  destruct (Hmany Hlen) as (c & Hc & Hsi & Hei & _).
  exists c. auto.
Defined.


(** ** Concrete scenarios *)

Section Scenarios.

Context `{ops : Operators}.
Variable s : scanner.

(** C1, amended: in a run of five supported instructions whose third
    instruction starts at a non-zero inbound target (no other offset being
    one), the candidate in progress ends at the instruction before the
    target and is dropped as too short; the target instruction itself is
    skipped and belongs to no candidate, so the two instructions left
    after it are too few as well and [ScanFunc] returns no candidate. *)
Theorem ScanFunc_target_inside targets x0 x1 x2 x3 x4 bytecode :
  Forall (fun x => supported s (inst_Op x) = true) [x0; x1; x2; x3; x4] ->
  inst_Start x2 ∈ targets -> 0 < inst_Start x2 ->
  Forall (fun x => inst_Start x ∉ targets) [x0; x1; x3; x4] ->
  (exists run,
     scanLoop s targets [x0; x1] 0 ([], zeroCandidate) = ([], run)
     /\ describes [x0; x1; x2; x3; x4] run 0 2
     /\ scanStep s targets ([], run) 2 x2 = ([], reset run)
     /\ AllOps (cand_Metrics (reset run)) = 0)
  /\ ScanFunc s bytecode (mkMeta [x0; x1; x2; x3; x4] targets) = ([], None).
Proof.
  intros Hsup Hin Hpos Hout.
  set (l := [x0; x1; x2; x3; x4]) in *.
  assert (go_slice l) as Hl.
  { unfold go_slice, GoInt.int_max. simpl. lia. }
  apply Forall_cons in Hsup as [S0 Hsup].
  apply Forall_cons in Hsup as [S1 Hsup].
  apply Forall_cons in Hsup as [S2 Hsup].
  apply Forall_cons in Hsup as [S3 Hsup].
  apply Forall_cons in Hsup as [S4 _].
  apply Forall_cons in Hout as [_ Hout].
  apply Forall_cons in Hout as [T1 Hout].
  apply Forall_cons in Hout as [_ Hout].
  apply Forall_cons in Hout as [T4 _].
  (* instructions 0 and 1 build the run [0, 2) *)
  destruct (accept_opens s targets l 0 [] zeroCandidate x0 Hl eq_refl eq_refl
              (accepted_when_empty s targets zeroCandidate x0 S0 eq_refl)) as [F1 R1].
  change (Z.of_nat 0) with 0 in *.
  destruct (scanStep s targets ([], zeroCandidate) 0 x0) as [f1 r1] eqn:E1.
  cbn [fst snd] in *. subst f1.
  destruct (accept_extends s targets l 0 1 [] r1 x1 Hl eq_refl R1
              (accepted_when_no_target s targets _ _ S1 T1)) as [F2 R2].
  change (Z.of_nat 1) with 1 in *.
  destruct (scanStep s targets ([], r1) 1 x1) as [f2 r2] eqn:E2.
  cbn [fst snd] in *. subst f2.
  (* instruction 2 is the target: the run is dropped *)
  assert (scanStep s targets ([], r2) 2 x2 = ([], reset r2)) as E3.
  { rewrite scanStep_reject.
    - rewrite (emit_describes l 0 2) by exact R2. reflexivity.
    - apply rejected_when_target_inside; [exact Hin|exact Hpos|].
      cbn [snd]. rewrite (describes_AllOps l r2 0 2 R2). simpl. lia. }
  (* instructions 3 and 4 build the run [3, 5) *)
  destruct (accept_opens s targets l 3 [] (reset r2) x3 Hl eq_refl eq_refl
              (accepted_when_empty s targets (reset r2) x3 S3 eq_refl)) as [F4 R4].
  change (Z.of_nat 3) with 3 in *.
  destruct (scanStep s targets ([], reset r2) 3 x3) as [f4 r4] eqn:E4.
  cbn [fst snd] in *. subst f4.
  destruct (accept_extends s targets l 3 4 [] r4 x4 Hl eq_refl R4
              (accepted_when_no_target s targets _ _ S4 T4)) as [F5 R5].
  change (Z.of_nat 4) with 4 in *.
  destruct (scanStep s targets ([], r4) 4 x4) as [f5 r5] eqn:E5.
  cbn [fst snd] in *. subst f5.
  split.
  - exists r2. split; [|split; [exact R2|split; [exact E3|reflexivity]]].
    cbn [scanLoop]. rewrite E1. change (0 + 1) with 1. exact E2.
  - unfold ScanFunc. cbn [Instructions InboundTargets]. f_equal.
    subst l. cbn [scanLoop]. rewrite E1.
    change (0 + 1) with 1. rewrite E2.
    change (1 + 1) with 2. rewrite E3.
    change (2 + 1) with 3. rewrite E4.
    change (3 + 1) with 4. rewrite E5.
    rewrite (emit_describes _ 3 5) by exact R5. reflexivity.
Qed.

Lemma describes_record l c a b x y m :
  describes l c a b ->
  l !! a = Some x -> l !! (b - 1)%nat = Some y ->
  sumContributions (instrRange l a b) = m ->
  c = mkCand (GoInt.uint (inst_Start x))
             (GoInt.uint (GoInt.uint (inst_Start y)
                          + GoInt.uint (inst_Size y)))
             (Z.of_nat a) (Z.of_nat b) m.
Proof.
  intros (_ & Hsi & Hei & (x' & Hx' & Hs) & (y' & Hy' & He) & Hm) Hx Hy Hsum.
  destruct c as [cs ce csi cei cm]. simpl in *.
  assert (x' = x) by congruence. assert (y' = y) by congruence.
  subst. reflexivity.
Qed.

(** C7: for the stream [Const, Const, Add, Call, Const, Const, Sub] with
    [Const], [Add] and [Sub] supported, [Call] unsupported and no inbound
    target, [ScanFunc] returns exactly two candidates: instructions 0-2
    and instructions 4-6, each with [AllOps = 3] and [IntegerOps = 3];
    instruction 3 is in neither. *)
Theorem ScanFunc_two_runs (callOp : Z)
    (o0 z0 o1 z1 o2 z2 o3 z3 o4 z4 o5 z5 o6 z6 : Z) bytecode :
  supported s I64Const = true -> supported s I64Add = true ->
  supported s I64Sub = true -> supported s callOp = false ->
  ScanFunc s bytecode
    (mkMeta [mkInst I64Const o0 z0; mkInst I64Const o1 z1;
             mkInst I64Add o2 z2; mkInst callOp o3 z3;
             mkInst I64Const o4 z4; mkInst I64Const o5 z5;
             mkInst I64Sub o6 z6] ∅)
  = ([mkCand (GoInt.uint o0) (GoInt.uint (GoInt.uint o2 + GoInt.uint z2))
             0 3 (mkMetrics 0 0 2 3 3 3 0);
      mkCand (GoInt.uint o4) (GoInt.uint (GoInt.uint o6 + GoInt.uint z6))
             4 7 (mkMetrics 0 0 2 3 3 3 0)],
     None).
Proof.
  intros Sconst Sadd Ssub Scall.
  set (x0 := mkInst I64Const o0 z0). set (x1 := mkInst I64Const o1 z1).
  set (x2 := mkInst I64Add o2 z2). set (x3 := mkInst callOp o3 z3).
  set (x4 := mkInst I64Const o4 z4). set (x5 := mkInst I64Const o5 z5).
  set (x6 := mkInst I64Sub o6 z6).
  set (l := [x0; x1; x2; x3; x4; x5; x6]).
  assert (go_slice l) as Hl.
  { unfold go_slice, GoInt.int_max. simpl. lia. }
  assert (forall x, inst_Start x ∉ (∅ : gset Z)) as Hno
    by (intros x; apply not_elem_of_empty).
  destruct contribution_table as (Hload & _ & _ & Hbin & _).
  assert (contribution I64Const = mkMetrics 0 0 0 1 1 1 0) as Cconst.
  { apply Hload. unfold loadOps. repeat constructor. }
  assert (contribution I64Add = mkMetrics 0 0 2 1 1 1 0) as Cadd.
  { apply Hbin. unfold binaryOps. repeat constructor. }
  assert (contribution I64Sub = mkMetrics 0 0 2 1 1 1 0) as Csub.
  { apply Hbin. unfold binaryOps. repeat constructor. }
  (* the run [0, 3) *)
  destruct (accept_opens s ∅ l 0 [] zeroCandidate x0 Hl eq_refl eq_refl
              (accepted_when_empty s ∅ zeroCandidate x0 Sconst eq_refl))
    as [F1 R1].
  change (Z.of_nat 0) with 0 in *.
  destruct (scanStep s ∅ ([], zeroCandidate) 0 x0) as [f1 r1] eqn:E1.
  cbn [fst snd] in *. subst f1.
  destruct (accept_extends s ∅ l 0 1 [] r1 x1 Hl eq_refl R1
              (accepted_when_no_target s ∅ r1 x1 Sconst (Hno x1)))
    as [F2 R2].
  change (Z.of_nat 1) with 1 in *.
  destruct (scanStep s ∅ ([], r1) 1 x1) as [f2 r2] eqn:E2.
  cbn [fst snd] in *. subst f2.
  destruct (accept_extends s ∅ l 0 2 [] r2 x2 Hl eq_refl R2
              (accepted_when_no_target s ∅ r2 x2 Sadd (Hno x2)))
    as [F3 R3].
  change (Z.of_nat 2) with 2 in *.
  destruct (scanStep s ∅ ([], r2) 2 x2) as [f3 r3] eqn:E3.
  cbn [fst snd] in *. subst f3.
  (* the unsupported instruction 3 closes it *)
  assert (scanStep s ∅ ([], r3) 3 x3 = ([r3], reset r3)) as E4.
  { rewrite scanStep_reject.
    - rewrite (emit_describes l 0 3) by exact R3. reflexivity.
    - apply rejected_when_unsupported. exact Scall. }
  (* the run [4, 7) *)
  destruct (accept_opens s ∅ l 4 [r3] (reset r3) x4 Hl eq_refl eq_refl
              (accepted_when_empty s ∅ (reset r3) x4 Sconst eq_refl))
    as [F5 R5].
  change (Z.of_nat 4) with 4 in *.
  destruct (scanStep s ∅ ([r3], reset r3) 4 x4) as [f5 r5] eqn:E5.
  cbn [fst snd] in *. subst f5.
  destruct (accept_extends s ∅ l 4 5 [r3] r5 x5 Hl eq_refl R5
              (accepted_when_no_target s ∅ r5 x5 Sconst (Hno x5)))
    as [F6 R6].
  change (Z.of_nat 5) with 5 in *.
  destruct (scanStep s ∅ ([r3], r5) 5 x5) as [f6 r6] eqn:E6.
  cbn [fst snd] in *. subst f6.
  destruct (accept_extends s ∅ l 4 6 [r3] r6 x6 Hl eq_refl R6
              (accepted_when_no_target s ∅ r6 x6 Ssub (Hno x6)))
    as [F7 R7].
  change (Z.of_nat 6) with 6 in *.
  destruct (scanStep s ∅ ([r3], r6) 6 x6) as [f7 r7] eqn:E7.
  cbn [fst snd] in *. subst f7.
  (* the two candidates, field by field *)
  assert (sumContributions (instrRange l 0 3) = mkMetrics 0 0 2 3 3 3 0)
    as M3.
  { unfold instrRange, l, sumContributions, x0, x1, x2. simpl.
    rewrite Cconst, Cadd. reflexivity. }
  assert (sumContributions (instrRange l 4 7) = mkMetrics 0 0 2 3 3 3 0)
    as M7.
  { unfold instrRange, l, sumContributions, x4, x5, x6. simpl.
    rewrite Cconst, Csub. reflexivity. }
  pose proof (describes_record l r3 0 3 x0 x2 _ R3 eq_refl eq_refl M3) as Q3.
  pose proof (describes_record l r7 4 7 x4 x6 _ R7 eq_refl eq_refl M7) as Q7.
  unfold ScanFunc. cbn [Instructions InboundTargets]. f_equal.
  unfold l. cbn [scanLoop]. rewrite E1.
  change (0 + 1) with 1. rewrite E2.
  change (1 + 1) with 2. rewrite E3.
  change (2 + 1) with 3. rewrite E4.
  change (3 + 1) with 4. rewrite E5.
  change (4 + 1) with 5. rewrite E6.
  change (5 + 1) with 6. rewrite E7.
  rewrite (emit_describes l 4 7) by exact R7.
  rewrite Q3, Q7. reflexivity.
Qed.

End Scenarios.

Lemma ScanFunc_two_runs_witness :
  (supported Samples.backend (@I64Const wasmOperators) = true
   /\ supported Samples.backend (@I64Add wasmOperators) = true
   /\ supported Samples.backend (@I64Sub wasmOperators) = true
   /\ supported Samples.backend 0x10 = false)
  /\ @ScanFunc wasmOperators Samples.backend [] Samples.twoRuns
     = ([mkCand 0 5 0 3 (mkMetrics 0 0 2 3 3 3 0);
         mkCand 7 12 4 7 (mkMetrics 0 0 2 3 3 3 0)],
        None).
Proof.
  split; [repeat split|].
  exact (@ScanFunc_two_runs wasmOperators Samples.backend 0x10
           0 2 2 2 4 1 5 2 7 2 9 2 11 1 []
           eq_refl eq_refl eq_refl eq_refl).
Defined.

Lemma ScanFunc_target_inside_witness :
  (Forall (fun x => supported Samples.backend (inst_Op x) = true)
     (Instructions Samples.targetInside)
   /\ 4 ∈ InboundTargets Samples.targetInside
   /\ 0 < 4
   /\ Forall (fun x => inst_Start x ∉ InboundTargets Samples.targetInside)
        [Samples.const 0; Samples.const 2; Samples.const 6;
         Samples.const 8])
  /\ @ScanFunc wasmOperators Samples.backend [] Samples.targetInside
     = ([], None).
Proof.
  assert (Forall (fun x => supported Samples.backend (inst_Op x) = true)
            (Instructions Samples.targetInside)) as Hsup
    by (repeat constructor).
  assert (4 ∈ InboundTargets Samples.targetInside) as Hin
    by (apply (bool_decide_unpack _); vm_compute; reflexivity).
  assert (0 < 4) as Hpos by lia.
  assert (Forall (fun x => inst_Start x ∉ InboundTargets Samples.targetInside)
            [Samples.const 0; Samples.const 2; Samples.const 6;
             Samples.const 8]) as Hout.
  { apply (bool_decide_unpack _). vm_compute. reflexivity. }
  split; [auto|].
  exact (proj2 (@ScanFunc_target_inside wasmOperators Samples.backend
                  (InboundTargets Samples.targetInside)
                  (Samples.const 0) (Samples.const 2) (Samples.const 4)
                  (Samples.const 6) (Samples.const 8) []
                  Hsup Hin Hpos Hout)).
Defined.

(** Counterexample to C1 as stated: five supported constants, the third
    one at the only inbound target, which no other offset hits;
    [ScanFunc] returns no candidate, so in particular none covering
    instructions 2-4. *)
Lemma ScanFunc_target_inside_no_candidate :
  (Forall (fun x => supported Samples.backend (inst_Op x) = true)
     (Instructions Samples.targetInside)
   /\ Instructions Samples.targetInside !! 2%nat = Some (Samples.const 4)
   /\ InboundTargets Samples.targetInside = {[ 4 ]})
  /\ @ScanFunc wasmOperators Samples.backend [] Samples.targetInside
     = ([], None)
  /\ ~ (exists c,
          (@ScanFunc wasmOperators Samples.backend []
             Samples.targetInside).1 = [c]
          /\ cand_StartInstruction c = 2 /\ cand_EndInstruction c = 5).
Proof.
  assert (@ScanFunc wasmOperators Samples.backend [] Samples.targetInside
          = ([], None)) as H by (vm_compute; reflexivity).
  split; [|split; [exact H|]].
  - split; [repeat constructor|]. split; reflexivity.
  - rewrite H. intros (c & Hc & _). discriminate Hc.
Qed.

(** Two supported instructions and nothing else: the run is too short. *)
Example ScanFunc_two_constants :
  @ScanFunc wasmOperators Samples.backend []
    (mkMeta [Samples.const 0; Samples.const 2] ∅)
  = ([], None).
Proof. vm_compute. reflexivity. Qed.

(** A target right after an unsupported instruction opens a candidate:
    nothing is in progress when it is reached. *)
Example ScanFunc_target_after_gap :
  (@ScanFunc wasmOperators Samples.backend []
     (mkMeta [Samples.call 0; Samples.const 2; Samples.const 4;
              Samples.const 6] {[ 2 ]})).1
  = [mkCand 2 8 1 4 (mkMetrics 0 0 0 3 3 3 0)].
Proof. vm_compute. reflexivity. Qed.

(** ** The trampoline *)

(** C2: entered with the three addresses in its argument slots, [jitcall]
    loads the word stored at [codeAddress] and leaves by a jump to it, not
    by a call or a return: the stack pointer and the memory, hence the
    caller's return address, are as on entry, [stackBase] and [localsBase]
    are in [R10] and [R11], and no register other than [AX], [R10] and
    [R11] has changed. *)
Theorem jitcall_tail_jump m codeAddress stackBase localsBase target :
  Amd64.entered m codeAddress stackBase localsBase ->
  Amd64.mem m !! GoInt.uint codeAddress = Some target ->
  exists m',
    Amd64.run Amd64.jitcall m = Amd64.Goto target m'
    /\ Amd64.regs m' Amd64.AX = target
    /\ Amd64.regs m' Amd64.R10 = stackBase
    /\ Amd64.regs m' Amd64.R11 = localsBase
    /\ (forall r, r <> Amd64.AX -> r <> Amd64.R10 -> r <> Amd64.R11 ->
                  Amd64.regs m' r = Amd64.regs m r)
    /\ Amd64.sp m' = Amd64.sp m
    /\ Amd64.mem m' = Amd64.mem m
    /\ last Amd64.jitcall = Some (Amd64.JMP Amd64.AX)
    /\ Amd64.RET ∉ Amd64.jitcall.
Proof.
  intros (Hcode & Hstack & Hlocals) Htarget.
  eexists. split.
  - unfold Amd64.jitcall. cbn [Amd64.run Amd64.exec].
    unfold Amd64.address at 1. rewrite Z.add_0_r, Hcode.
    unfold Amd64.address at 1. cbn [Amd64.setReg Amd64.sp Amd64.mem].
    replace (Amd64.sp m + 8 + 8) with (Amd64.sp m + 16) by lia.
    rewrite Hstack.
    unfold Amd64.address at 1. cbn [Amd64.setReg Amd64.sp Amd64.mem].
    replace (Amd64.sp m + 8 + 16) with (Amd64.sp m + 24) by lia.
    rewrite Hlocals.
    unfold Amd64.address at 1.
    cbn [Amd64.setReg Amd64.sp Amd64.mem Amd64.regs].
    rewrite fn_lookup_insert_ne by discriminate.
    rewrite fn_lookup_insert_ne by discriminate.
    rewrite fn_lookup_insert, Z.add_0_r, Htarget.
    cbn [Amd64.setReg Amd64.sp Amd64.mem Amd64.regs].
    rewrite fn_lookup_insert. reflexivity.
  - cbn [Amd64.regs Amd64.sp Amd64.mem Amd64.setReg].
    split; [apply fn_lookup_insert|].
    split.
    { rewrite fn_lookup_insert_ne by discriminate.
      rewrite fn_lookup_insert_ne by discriminate.
      apply fn_lookup_insert. }
    split.
    { rewrite fn_lookup_insert_ne by discriminate.
      apply fn_lookup_insert. }
    split.
    { intros r Hax H10 H11.
      rewrite !fn_lookup_insert_ne by congruence. reflexivity. }
    split; [reflexivity|]. split; [reflexivity|]. split; [reflexivity|].
    unfold Amd64.jitcall. intros Hin.
    repeat (apply elem_of_cons in Hin as [Hin|Hin]; [discriminate Hin|]).
    apply elem_of_nil in Hin. exact Hin.
Qed.

Lemma jitcall_tail_jump_witness :
  (Amd64.entered Samples.entry 5000 6000 7000
   /\ Amd64.mem Samples.entry !! GoInt.uint 5000 = Some 9000)
  /\ exists m',
       Amd64.run Amd64.jitcall Samples.entry = Amd64.Goto 9000 m'
       /\ Amd64.regs m' Amd64.AX = 9000
       /\ Amd64.regs m' Amd64.R10 = 6000
       /\ Amd64.regs m' Amd64.R11 = 7000
       /\ Amd64.sp m' = 1000
       /\ Amd64.mem m' !! 1000 = Some 42.
Proof.
  assert (Amd64.entered Samples.entry 5000 6000 7000) as Hent
    by (repeat split).
  assert (Amd64.mem Samples.entry !! GoInt.uint 5000 = Some 9000) as Hslot
    by reflexivity.
  split; [auto|].
  destruct (jitcall_tail_jump Samples.entry 5000 6000 7000 9000 Hent Hslot)
    as (m' & Hrun & Hax & H10 & H11 & _ & Hsp & Hmem & _).
  exists m'. rewrite Hmem. repeat split; assumption || reflexivity.
Defined.

(** ** What delimits the returned runs *)

Section RunStructure.

Context `{ops : Operators}.
Variable s : scanner.
Variable targets : gset Z.

Lemma disqualified_breaks c x :
  disqualified s targets c x = true -> breaksRun s targets x.
Proof.
  unfold disqualified, breaksRun. intros H.
  apply orb_true_iff in H as [H|H].
  - left. apply negb_true_iff. exact H.
  - right. apply andb_true_iff in H as [H _].
    apply andb_true_iff in H as [Ht Hp].
    split; [apply bool_decide_eq_true_1 in Ht; exact Ht|].
    apply Z.ltb_lt. exact Hp.
Qed.

Lemma accepted_supported c x :
  disqualified s targets c x = false -> supported s (inst_Op x) = true.
Proof.
  unfold disqualified. intros H.
  apply orb_false_iff in H as [H _]. apply negb_false_iff. exact H.
Qed.

Lemma accepted_not_target c x :
  disqualified s targets c x = false ->
  0 < AllOps (cand_Metrics c) ->
  ~ (inst_Start x ∈ targets /\ 0 < inst_Start x).
Proof.
  intros H Hrun [Ht Hp].
  rewrite (rejected_when_target_inside s targets c x Ht Hp Hrun) in H.
  discriminate H.
Qed.

Lemma finishedRuns_weaken l (lo lo' : nat) fin :
  (lo <= lo')%nat ->
  Forall (fun c => exists a b,
            runFacts s targets l c a b
            /\ (a + 3 <= b)%nat /\ (b < lo)%nat
            /\ (exists x, l !! b = Some x /\ breaksRun s targets x)) fin ->
  Forall (fun c => exists a b,
            runFacts s targets l c a b
            /\ (a + 3 <= b)%nat /\ (b < lo')%nat
            /\ (exists x, l !! b = Some x /\ breaksRun s targets x)) fin.
Proof.
  intros Hle Hfin. eapply Forall_impl; [exact Hfin|].
  intros c (a & b & Hr & H3 & Hb & Hx). exists a, b.
  split; [exact Hr|]. split; [lia|]. split; [lia|exact Hx].
Qed.

Lemma scanInvRuns_init l : scanInvRuns s targets l 0 ([], zeroCandidate).
Proof.
  exists 0%nat. cbn [fst snd].
  split; [lia|]. split; [constructor|].
  left. split; [reflexivity|]. split; [reflexivity|]. left. reflexivity.
Qed.

Lemma scanInvRuns_step l n st x :
  go_slice l -> l !! n = Some x ->
  scanInvRuns s targets l n st ->
  scanInvRuns s targets l (S n) (scanStep s targets st (Z.of_nat n) x).
Proof.
  intros Hl Hx (lo & Hlo & Hfin & Hacc).
  destruct st as [fin inP]. cbn [fst snd] in *.
  destruct (disqualified s targets inP x) eqn:Hd.
  - (* the instruction breaks the run *)
    pose proof (disqualified_breaks inP x Hd) as Hbr.
    assert (openedAt s targets l (S n)) as Hopen.
    { right. exists x. rewrite Nat.sub_succ, Nat.sub_0_r. auto. }
    rewrite (scanStep_reject s targets (fin, inP)) by exact Hd.
    exists (S n). cbn [fst snd].
    split; [lia|].
    assert (cand_Metrics (reset inP) = zeroMetrics) as Hz' by reflexivity.
    destruct Hacc as [(-> & Hz & _) | Hrun].
    + rewrite emit_empty by exact Hz.
      split; [eapply finishedRuns_weaken; [|exact Hfin]; lia|].
      left. auto.
    + pose proof Hrun as (Hdesc & _).
      rewrite (emit_describes l lo n) by exact Hdesc.
      destruct (decide (lo + 3 <= n)%nat) as [H3|H3].
      * split; [|left; auto].
        apply Forall_app. split.
        -- eapply finishedRuns_weaken; [|exact Hfin]. lia.
        -- constructor; [|constructor].
           exists lo, n. split; [exact Hrun|].
           split; [lia|]. split; [lia|]. exists x. auto.
      * split; [eapply finishedRuns_weaken; [|exact Hfin]; lia|].
        left. auto.
  - (* the instruction joins the run *)
    pose proof (accepted_supported inP x Hd) as Hsx.
    destruct Hacc as [(-> & Hz & Hopen) | (Hdesc & (Hsup & Hnt) & Hopen)].
    + destruct (accept_opens s targets l n fin inP x Hl Hx Hz Hd)
        as [Hfst Hdesc].
      exists n. rewrite Hfst.
      split; [lia|]. split; [exact Hfin|]. right.
      split; [exact Hdesc|]. split; [|exact Hopen].
      split.
      * intros k y Hk Hy. assert (k = n) as -> by lia.
        assert (y = x) as -> by congruence. exact Hsx.
      * intros k y Hk. lia.
    + destruct (accept_extends s targets l lo n fin inP x Hl Hx Hdesc Hd)
        as [Hfst Hdesc'].
      exists lo. rewrite Hfst.
      split; [lia|]. split; [exact Hfin|]. right.
      split; [exact Hdesc'|]. split; [|exact Hopen].
      assert (0 < AllOps (cand_Metrics inP)) as Hrun.
      { rewrite (describes_AllOps l inP lo n Hdesc).
        destruct Hdesc as (Hab & _). lia. }
      split.
      * intros k y Hk Hy.
        destruct (decide (k = n)) as [->|Hne].
        -- assert (y = x) as -> by congruence. exact Hsx.
        -- apply (Hsup k y); [lia|exact Hy].
      * intros k y Hk Hy.
        destruct (decide (k = n)) as [->|Hne].
        -- assert (y = x) as -> by congruence.
           exact (accepted_not_target inP x Hd Hrun).
        -- apply (Hnt k y); [lia|exact Hy].
Qed.

(** Every returned candidate is a guarded run of at least three
    instructions, opened at its start and closed at its end. *)
Lemma ScanFunc_run_facts bytecode l :
  go_slice l ->
  Forall (fun c => exists a b,
            runFacts s targets l c a b
            /\ (a + 3 <= b)%nat /\ closedAt s targets l b)
         (ScanFunc s bytecode (mkMeta l targets)).1.
Proof.
  intros Hl. unfold ScanFunc. cbn [fst Instructions InboundTargets].
  assert (scanInvRuns s targets l (length l)
            (scanLoop s targets l 0 ([], zeroCandidate))) as Hinv.
  { apply (scanLoop_ind s targets (scanInvRuns s targets l) l)
      with (n := 0%nat).
    - intros n st x Hx Hi. apply scanInvRuns_step; assumption.
    - lia.
    - reflexivity.
    - apply scanInvRuns_init. }
  destruct (scanLoop s targets l 0 ([], zeroCandidate)) as [fin inP].
  destruct Hinv as (lo & Hlo & Hfin & Hacc). cbn [fst snd] in *.
  assert (Forall (fun c => exists a b,
                    runFacts s targets l c a b
                    /\ (a + 3 <= b)%nat /\ closedAt s targets l b) fin)
    as Hfin'.
  { eapply Forall_impl; [exact Hfin|].
    intros c (a & b & Hr & H3 & _ & Hx). exists a, b.
    split; [exact Hr|]. split; [exact H3|]. right. exact Hx. }
  destruct Hacc as [(-> & Hz & _) | Hrun].
  - rewrite emit_empty by exact Hz. exact Hfin'.
  - pose proof Hrun as (Hdesc & _).
    rewrite (emit_describes l lo (length l)) by exact Hdesc.
    destruct (decide (lo + 3 <= length l)%nat); [|exact Hfin'].
    apply Forall_app. split; [exact Hfin'|].
    constructor; [|constructor].
    exists lo, (length l). split; [exact Hrun|]. split; [lia|].
    left. reflexivity.
Qed.

End RunStructure.

(** ** Further properties of the returned candidates *)

Lemma twoRuns_go_slice : go_slice (Instructions Samples.twoRuns).
Proof. unfold go_slice, GoInt.int_max. simpl. lia. Qed.

Lemma contiguous_lookup l k x y :
  contiguous l -> l !! k = Some x -> l !! S k = Some y ->
  inst_Start y = inst_Start x + inst_Size x.
Proof.
  revert k. induction l as [|a l IH]; intros k Hc Hx Hy; [discriminate|].
  destruct l as [|b l]; [discriminate|].
  destruct Hc as [Hab Hc].
  destruct k as [|k].
  - simpl in Hx, Hy. congruence.
  - apply (IH k); assumption.
Qed.

Lemma sizeSum_snoc l x : sizeSum (l ++ [x]) = sizeSum l + inst_Size x.
Proof. induction l as [|a l IH]; simpl; lia. Qed.

Section CandidateFacts.

Context `{ops : Operators}.
Variable s : scanner.

(** In a contiguous stream the end of instruction [a + d] is the start of
    instruction [a] plus the sizes of the instructions [[a, a + d]]. *)
Lemma contiguous_range l d a x y :
  contiguous l -> l !! a = Some x -> l !! (a + d)%nat = Some y ->
  inst_Start y + inst_Size y
  = inst_Start x + sizeSum (instrRange l a (S (a + d))).
Proof.
  intros Hc Hx. revert y. induction d as [|d IH]; intros y Hy.
  - rewrite Nat.add_0_r in *. assert (y = x) as -> by congruence.
    rewrite (instrRange_extend l a a x) by (lia || assumption).
    rewrite instrRange_empty. simpl. lia.
  - assert (is_Some (l !! (a + d)%nat)) as [y' Hy'].
    { apply lookup_lt_is_Some. apply lookup_lt_Some in Hy. lia. }
    replace (a + S d)%nat with (S (a + d)) in * by lia.
    rewrite (instrRange_extend l a (S (a + d)) y) by (lia || assumption).
    rewrite sizeSum_snoc.
    pose proof (IH y' Hy') as Hprev.
    pose proof (contiguous_lookup l (a + d) y' y Hc Hy' Hy) as Hnext.
    lia.
Qed.

(** X1: every instruction inside a returned candidate has an opcode the
    backend supports. *)
Theorem ScanFunc_candidates_supported bytecode meta :
  go_slice (Instructions meta) ->
  Forall (fun c => forall (k : nat) x,
            cand_StartInstruction c <= Z.of_nat k < cand_EndInstruction c ->
            Instructions meta !! k = Some x ->
            supported s (inst_Op x) = true)
         (ScanFunc s bytecode meta).1.
Proof.
  destruct meta as [l targets]. cbn [Instructions]. intros Hl.
  eapply Forall_impl; [exact (ScanFunc_run_facts s targets bytecode l Hl)|].
  intros c (a & b & (Hdesc & (Hsup & _) & _) & _) k x Hk Hx.
  destruct Hdesc as (_ & Hsi & Hei & _).
  apply (Hsup k x); [lia|exact Hx].
Qed.

(** X2: no instruction after the first one of a returned candidate starts
    at an inbound target with a non-zero offset. *)
Theorem ScanFunc_no_target_inside bytecode meta :
  go_slice (Instructions meta) ->
  Forall (fun c => forall (k : nat) x,
            cand_StartInstruction c < Z.of_nat k < cand_EndInstruction c ->
            Instructions meta !! k = Some x ->
            inst_Start x ∈ InboundTargets meta -> inst_Start x <= 0)
         (ScanFunc s bytecode meta).1.
Proof.
  destruct meta as [l targets]. cbn [Instructions InboundTargets]. intros Hl.
  eapply Forall_impl; [exact (ScanFunc_run_facts s targets bytecode l Hl)|].
  intros c (a & b & (Hdesc & (_ & Hnt) & _) & _) k x Hk Hx Ht.
  destruct Hdesc as (_ & Hsi & Hei & _).
  destruct (Z_le_gt_dec (inst_Start x) 0) as [|Hpos]; [assumption|].
  exfalso. apply (Hnt k x); [lia|exact Hx|]. split; [exact Ht|lia].
Qed.

(** X3: a returned candidate cannot be extended on either side: the
    instruction before it, if there is one, and the instruction after it,
    if there is one, is unsupported or starts at a non-zero inbound
    target. *)
Theorem ScanFunc_candidates_delimited bytecode meta :
  go_slice (Instructions meta) ->
  Forall (fun c =>
            (0 < cand_StartInstruction c ->
             exists x,
               Instructions meta !! Z.to_nat (cand_StartInstruction c - 1)
               = Some x
               /\ breaksRun s (InboundTargets meta) x)
            /\ (cand_EndInstruction c < Z.of_nat (length (Instructions meta))
                -> exists x,
                  Instructions meta !! Z.to_nat (cand_EndInstruction c)
                  = Some x
                  /\ breaksRun s (InboundTargets meta) x))
         (ScanFunc s bytecode meta).1.
Proof.
  destruct meta as [l targets]. cbn [Instructions InboundTargets]. intros Hl.
  eapply Forall_impl; [exact (ScanFunc_run_facts s targets bytecode l Hl)|].
  intros c (a & b & (Hdesc & _ & Hopen) & _ & Hclosed).
  destruct Hdesc as (_ & Hsi & Hei & _). rewrite Hsi, Hei.
  split.
  - intros Hpos. destruct Hopen as [->|Hx]; [simpl in Hpos; lia|].
    replace (Z.to_nat (Z.of_nat a - 1)) with (a - 1)%nat by lia. exact Hx.
  - intros Hlt. destruct Hclosed as [->|Hx]; [lia|].
    rewrite Nat2Z.id. exact Hx.
Qed.

(** X4: the indexes of a returned candidate lie within the stream,
    [AllOps] is the number of its instructions, and the other counters of
    the table are bounded by it. *)
Theorem ScanFunc_candidate_counters bytecode meta :
  go_slice (Instructions meta) ->
  Forall (fun c =>
            let m := cand_Metrics c in
            0 <= cand_StartInstruction c
            /\ cand_EndInstruction c <= Z.of_nat (length (Instructions meta))
            /\ AllOps m = cand_EndInstruction c - cand_StartInstruction c
            /\ 0 <= IntegerOps m <= AllOps m
            /\ 0 <= StackWrites m <= AllOps m
            /\ 0 <= StackReads m <= 2 * AllOps m)
         (ScanFunc s bytecode meta).1.
Proof.
  intros Hl. destruct (ScanFunc_runs s bytecode meta Hl) as [Hruns _].
  eapply Forall_impl; [exact Hruns|].
  intros c (a & b & (Hab & Hsi & Hei & _ & _ & Hm) & _). cbn zeta.
  pose proof (sumContributions_bounds (instrRange (Instructions meta) a b))
    as (Hall & (Hsr & Hsw & _ & Hio) & _).
  rewrite instrRange_length in Hall, Hsr, Hsw, Hio by lia.
  rewrite Hm, Hsi, Hei, Hall. lia.
Qed.

(** X5: [Bounds] of a returned candidate is the pair of the start offset
    of its first instruction and the end offset (start plus size) of its
    last instruction, both as [uint]. *)
Theorem ScanFunc_bounds_of_instructions bytecode meta :
  go_slice (Instructions meta) ->
  Forall (fun c => exists x y,
            Instructions meta !! Z.to_nat (cand_StartInstruction c) = Some x
            /\ Instructions meta !! Z.to_nat (cand_EndInstruction c - 1)
               = Some y
            /\ Bounds c
               = (GoInt.uint (inst_Start x),
                  GoInt.uint (GoInt.uint (inst_Start y)
                              + GoInt.uint (inst_Size y))))
         (ScanFunc s bytecode meta).1.
Proof.
  intros Hl. destruct (ScanFunc_runs s bytecode meta Hl) as [Hruns _].
  eapply Forall_impl; [exact Hruns|].
  intros c (a & b & (Hab & Hsi & Hei & (x & Hx & Hs) & (y & Hy & He) & _) & _).
  exists x, y. rewrite Hsi, Hei, Nat2Z.id.
  replace (Z.to_nat (Z.of_nat b - 1)) with (b - 1)%nat by lia.
  unfold Bounds. rewrite Hs, He. auto.
Qed.

(** X6: when the stream is contiguous, with non-negative offsets and
    sizes, the byte range [Bounds] reports for a returned candidate starts
    at its first instruction and is as long as the sizes of its
    instructions together. *)
Theorem ScanFunc_bounds_cover_sizes bytecode meta :
  go_slice (Instructions meta) ->
  Forall go_inst (Instructions meta) ->
  Forall nonneg_inst (Instructions meta) ->
  contiguous (Instructions meta) ->
  Forall (fun c => exists x,
            Instructions meta !! Z.to_nat (cand_StartInstruction c) = Some x
            /\ Bounds c
               = (inst_Start x,
                  inst_Start x
                  + sizeSum (instrRange (Instructions meta)
                               (Z.to_nat (cand_StartInstruction c))
                               (Z.to_nat (cand_EndInstruction c)))))
         (ScanFunc s bytecode meta).1.
Proof.
  intros Hl Hgo Hnn Hc.
  destruct (ScanFunc_runs s bytecode meta Hl) as [Hruns _].
  eapply Forall_impl; [exact Hruns|].
  intros c (a & b & Hd & _).
  destruct (describes_offsets _ c a b Hgo Hnn Hd)
    as (x & y & Hx & Hy & Hs & He).
  destruct Hd as (Hab & Hsi & Hei & _).
  exists x. rewrite Hsi, Hei, !Nat2Z.id. split; [exact Hx|].
  unfold Bounds. rewrite Hs, He. f_equal.
  replace (b - 1)%nat with (a + (b - 1 - a))%nat in Hy by lia.
  rewrite (contiguous_range _ (b - 1 - a) a x y Hc Hx Hy).
  replace (S (a + (b - 1 - a))) with b by lia. reflexivity.
Qed.

End CandidateFacts.

Lemma ScanFunc_candidates_supported_witness :
  go_slice (Instructions Samples.twoRuns)
  /\ Forall (fun c => forall (k : nat) x,
               cand_StartInstruction c <= Z.of_nat k < cand_EndInstruction c ->
               Instructions Samples.twoRuns !! k = Some x ->
               supported Samples.backend (inst_Op x) = true)
            (@ScanFunc wasmOperators Samples.backend [] Samples.twoRuns).1.
Proof.
  split; [exact twoRuns_go_slice|].
  exact (@ScanFunc_candidates_supported wasmOperators Samples.backend []
           Samples.twoRuns twoRuns_go_slice).
Defined.

Lemma ScanFunc_no_target_inside_witness :
  go_slice (Instructions Samples.targetCuts)
  /\ (@ScanFunc wasmOperators Samples.backend [] Samples.targetCuts).1
     = [mkCand 0 6 0 3 (mkMetrics 0 0 0 3 3 3 0);
        mkCand 8 14 4 7 (mkMetrics 0 0 0 3 3 3 0);
        mkCand 16 22 8 11 (mkMetrics 0 0 0 3 3 3 0)]
  /\ Forall (fun c => forall (k : nat) x,
               cand_StartInstruction c < Z.of_nat k < cand_EndInstruction c ->
               Instructions Samples.targetCuts !! k = Some x ->
               inst_Start x ∈ InboundTargets Samples.targetCuts ->
               inst_Start x <= 0)
            (@ScanFunc wasmOperators Samples.backend []
               Samples.targetCuts).1.
Proof.
  assert (go_slice (Instructions Samples.targetCuts)) as H.
  { unfold go_slice, GoInt.int_max. simpl. lia. }
  split; [exact H|]. split; [vm_compute; reflexivity|].
  exact (@ScanFunc_no_target_inside wasmOperators Samples.backend []
           Samples.targetCuts H).
Defined.

Lemma ScanFunc_candidates_delimited_witness :
  go_slice (Instructions Samples.twoRuns)
  /\ Forall (fun c =>
               (0 < cand_StartInstruction c ->
                exists x,
                  Instructions Samples.twoRuns
                    !! Z.to_nat (cand_StartInstruction c - 1) = Some x
                  /\ breaksRun Samples.backend
                       (InboundTargets Samples.twoRuns) x)
               /\ (cand_EndInstruction c
                   < Z.of_nat (length (Instructions Samples.twoRuns)) ->
                   exists x,
                     Instructions Samples.twoRuns
                       !! Z.to_nat (cand_EndInstruction c) = Some x
                     /\ breaksRun Samples.backend
                          (InboundTargets Samples.twoRuns) x))
            (@ScanFunc wasmOperators Samples.backend [] Samples.twoRuns).1.
Proof.
  split; [exact twoRuns_go_slice|].
  exact (@ScanFunc_candidates_delimited wasmOperators Samples.backend []
           Samples.twoRuns twoRuns_go_slice).
Defined.

Lemma ScanFunc_candidate_counters_witness :
  go_slice (Instructions Samples.twoRuns)
  /\ Forall (fun c =>
               let m := cand_Metrics c in
               0 <= cand_StartInstruction c
               /\ cand_EndInstruction c
                  <= Z.of_nat (length (Instructions Samples.twoRuns))
               /\ AllOps m = cand_EndInstruction c - cand_StartInstruction c
               /\ 0 <= IntegerOps m <= AllOps m
               /\ 0 <= StackWrites m <= AllOps m
               /\ 0 <= StackReads m <= 2 * AllOps m)
            (@ScanFunc wasmOperators Samples.backend [] Samples.twoRuns).1.
Proof.
  split; [exact twoRuns_go_slice|].
  exact (@ScanFunc_candidate_counters wasmOperators Samples.backend []
           Samples.twoRuns twoRuns_go_slice).
Defined.

Lemma ScanFunc_bounds_of_instructions_witness :
  go_slice (Instructions Samples.twoRuns)
  /\ Forall (fun c => exists x y,
               Instructions Samples.twoRuns
                 !! Z.to_nat (cand_StartInstruction c) = Some x
               /\ Instructions Samples.twoRuns
                    !! Z.to_nat (cand_EndInstruction c - 1) = Some y
               /\ Bounds c
                  = (GoInt.uint (inst_Start x),
                     GoInt.uint (GoInt.uint (inst_Start y)
                                 + GoInt.uint (inst_Size y))))
            (@ScanFunc wasmOperators Samples.backend [] Samples.twoRuns).1.
Proof.
  split; [exact twoRuns_go_slice|].
  exact (@ScanFunc_bounds_of_instructions wasmOperators Samples.backend []
           Samples.twoRuns twoRuns_go_slice).
Defined.

Lemma ScanFunc_bounds_cover_sizes_witness :
  (go_slice (Instructions Samples.twoRuns)
   /\ Forall go_inst (Instructions Samples.twoRuns)
   /\ Forall nonneg_inst (Instructions Samples.twoRuns)
   /\ contiguous (Instructions Samples.twoRuns))
  /\ Forall (fun c => exists x,
               Instructions Samples.twoRuns
                 !! Z.to_nat (cand_StartInstruction c) = Some x
               /\ Bounds c
                  = (inst_Start x,
                     inst_Start x
                     + sizeSum (instrRange (Instructions Samples.twoRuns)
                                  (Z.to_nat (cand_StartInstruction c))
                                  (Z.to_nat (cand_EndInstruction c)))))
            (@ScanFunc wasmOperators Samples.backend [] Samples.twoRuns).1.
Proof.
  assert (Forall go_inst (Instructions Samples.twoRuns)) as Hgo.
  { apply (bool_decide_unpack _). vm_compute. reflexivity. }
  assert (Forall nonneg_inst (Instructions Samples.twoRuns)) as Hnn.
  { apply (bool_decide_unpack _). vm_compute. reflexivity. }
  assert (contiguous (Instructions Samples.twoRuns)) as Hc.
  { simpl. repeat split. }
  split; [pose proof twoRuns_go_slice; auto|].
  exact (@ScanFunc_bounds_cover_sizes wasmOperators Samples.backend []
           Samples.twoRuns twoRuns_go_slice Hgo Hnn Hc).
Defined.

(** ** How many candidates, and when none *)

Lemma sorted_runs_count (out : list CompilationCandidate) (m : Z) :
  StronglySorted before_instr out ->
  forall lo,
    Forall (fun c => lo <= cand_StartInstruction c
                     /\ cand_StartInstruction c + 3 <= cand_EndInstruction c
                     /\ cand_EndInstruction c <= m) out ->
    out <> [] -> 4 * Z.of_nat (length out) <= m + 1 - lo.
Proof.
  induction 1 as [|c out Hs IH Hbefore]; intros lo Hall Hne; [congruence|].
  apply Forall_cons in Hall as [(Hlo & H3 & Hm) Hall].
  destruct out as [|c' out'].
  - simpl. lia.
  - assert (4 * Z.of_nat (length (c' :: out'))
            <= m + 1 - (cand_EndInstruction c + 1)) as Hrest.
    { apply IH; [|discriminate].
      rewrite Forall_forall in *. intros d Hd.
      destruct (Hall d Hd) as (_ & Hd3 & Hdm).
      specialize (Hbefore d Hd). unfold before_instr in Hbefore.
      split; [lia|]. split; assumption. }
    change (length (c :: c' :: out')) with (S (length (c' :: out'))).
    lia.
Qed.

Section CandidateCount.

Context `{ops : Operators}.
Variable s : scanner.

(** X7: a stream of [n] instructions yields at most [(n + 1) / 4]
    candidates: each one holds at least three instructions and is followed
    by at least one instruction outside every candidate before the next
    one begins. In particular fewer than three instructions yield none. *)
Theorem ScanFunc_candidate_count bytecode meta :
  go_slice (Instructions meta) ->
  4 * Z.of_nat (length (ScanFunc s bytecode meta).1)
  <= Z.of_nat (length (Instructions meta)) + 1.
Proof.
  intros Hl. destruct (ScanFunc_runs s bytecode meta Hl) as [Hruns Hsorted].
  destruct ((ScanFunc s bytecode meta).1) as [|c out] eqn:Hout.
  - simpl. lia.
  - pose proof (sorted_runs_count (c :: out)
                  (Z.of_nat (length (Instructions meta))) Hsorted 0) as H.
    rewrite Z.sub_0_r in H. apply H; [|discriminate].
    eapply Forall_impl; [exact Hruns|].
    intros d (a & b & (Hab & Hsi & Hei & _) & H3). lia.
Qed.

(** X8: when no instruction of the stream has a supported opcode,
    [ScanFunc] returns no candidate, whatever the stream and targets. *)
Theorem ScanFunc_nothing_supported bytecode meta :
  Forall (fun x => supported s (inst_Op x) = false) (Instructions meta) ->
  ScanFunc s bytecode meta = ([], None).
Proof.
  destruct meta as [l targets]. cbn [Instructions]. intros Hall.
  unfold ScanFunc. cbn [Instructions InboundTargets]. f_equal.
  assert (let st := scanLoop s targets l 0 ([], zeroCandidate) in
          st.1 = [] /\ cand_Metrics st.2 = zeroMetrics) as Hinv.
  { apply (scanLoop_ind s targets
             (fun _ st => st.1 = [] /\ cand_Metrics st.2 = zeroMetrics) l)
      with (n := 0%nat); [|lia|reflexivity|auto].
    intros n [fin inP] x Hx [Hfin Hz]. cbn [fst snd] in *. subst fin.
    pose proof (Forall_lookup_1 _ _ _ _ Hall Hx) as Hu. simpl in Hu.
    rewrite (scanStep_reject s targets ([], inP))
      by (apply rejected_when_unsupported; exact Hu).
    rewrite emit_empty by exact Hz. auto. }
  destruct (scanLoop s targets l 0 ([], zeroCandidate)) as [fin inP].
  cbn [fst snd] in Hinv. destruct Hinv as [-> Hz].
  apply emit_empty. exact Hz.
Qed.

(** X9: the result depends on the backend table and on the target set
    only through the opcodes that occur in the stream and the non-zero
    start offsets that occur in it: two tables and two target sets that
    agree there, with any two byte slices, give the same result. *)
Theorem ScanFunc_depends_on_stream_only (s' : scanner) (b b' : list Z)
    (l : list InstructionMetadata) (targets targets' : gset Z) :
  Forall (fun x => supported s (inst_Op x) = supported s' (inst_Op x)) l ->
  Forall (fun x => 0 < inst_Start x ->
                   (inst_Start x ∈ targets <-> inst_Start x ∈ targets')) l ->
  ScanFunc s b (mkMeta l targets) = ScanFunc s' b' (mkMeta l targets').
Proof.
  intros Hs Ht. unfold ScanFunc. cbn [Instructions InboundTargets].
  f_equal. f_equal.
  generalize 0. generalize (([], zeroCandidate) : scanState).
  induction l as [|x l IH]; intros st i; [reflexivity|].
  apply Forall_cons in Hs as [Hsx Hs]. apply Forall_cons in Ht as [Htx Ht].
  cbn [scanLoop]. rewrite (IH Hs Ht). f_equal.
  destruct st as [fin inP]. unfold scanStep. rewrite Hsx.
  destruct (Z.ltb_spec 0 (inst_Start x)) as [Hpos|Hnp].
  - rewrite (bool_decide_ext _ _ (Htx Hpos)). reflexivity.
  - rewrite !andb_false_r. reflexivity.
Qed.

End CandidateCount.

(** ** Scanning a stream piece by piece *)

Section Composition.

Context `{ops : Operators}.
Variable s : scanner.
Variable targets : gset Z.

Lemma scanLoop_app l1 l2 i st :
  scanLoop s targets (l1 ++ l2) i st
  = scanLoop s targets l2 (i + Z.of_nat (length l1))
      (scanLoop s targets l1 i st).
Proof.
  revert i st. induction l1 as [|x l1 IH]; intros i st.
  - simpl. rewrite Z.add_0_r. reflexivity.
  - cbn [app scanLoop]. rewrite IH. f_equal.
    change (length (x :: l1)) with (S (length l1)). lia.
Qed.

Lemma supported_agree_loop (s' : scanner) l i st :
  (forall op, supported s op = supported s' op) ->
  scanLoop s targets l i st = scanLoop s' targets l i st.
Proof.
  intros Hs. revert i st. induction l as [|x l IH]; intros i st.
  - reflexivity.
  - cbn [scanLoop]. rewrite IH. f_equal.
    destruct st as [fin inP]. unfold scanStep. rewrite Hs. reflexivity.
Qed.

(** Finished candidates are never removed or changed. *)
Lemma scanStep_keeps_finished st i x :
  exists more, (scanStep s targets st i x).1 = st.1 ++ more.
Proof.
  destruct (disqualified s targets st.2 x) eqn:Hd.
  - rewrite scanStep_reject by exact Hd. destruct st as [fin inP].
    unfold emit. cbn [fst snd].
    destruct (2 <? _); [exists [inP]; reflexivity|].
    exists []. rewrite app_nil_r. reflexivity.
  - rewrite scanStep_accept by exact Hd. exists [].
    rewrite app_nil_r. reflexivity.
Qed.

Lemma scanLoop_keeps_finished l i st :
  exists more, (scanLoop s targets l i st).1 = st.1 ++ more.
Proof.
  revert i st. induction l as [|x l IH]; intros i st.
  - exists []. rewrite app_nil_r. reflexivity.
  - cbn [scanLoop].
    destruct (IH (i + 1) (scanStep s targets st i x)) as [m2 H2].
    destruct (scanStep_keeps_finished st i x) as [m1 H1].
    exists (m1 ++ m2). rewrite H2, H1, app_assoc. reflexivity.
Qed.

Lemma emit_keeps_finished st : exists more, emit st = st.1 ++ more.
Proof.
  destruct st as [fin inP]. unfold emit. cbn [fst].
  destruct (2 <? _); [exists [inP]; reflexivity|].
  exists []. rewrite app_nil_r. reflexivity.
Qed.

(** A scan started [k] instructions later, in lockstep. *)
Lemma shiftedState_step k pre st st' i x :
  GoInt.is_int (i + 1) -> GoInt.is_int (i + k + 1) ->
  shiftedState k pre st st' ->
  shiftedState k pre (scanStep s targets st i x)
                     (scanStep s targets st' (i + k) x).
Proof.
  intros Hi Hik (Hfin & Hm & Hrun).
  destruct st as [fin inP], st' as [fin' inP']. cbn [fst snd] in *.
  assert (disqualified s targets inP' x = disqualified s targets inP x)
    as Hsame by (unfold disqualified; rewrite Hm; reflexivity).
  destruct (disqualified s targets inP x) eqn:Hd.
  - rewrite (scanStep_reject s targets (fin, inP)) by exact Hd.
    rewrite (scanStep_reject s targets (fin', inP')) by exact Hsame.
    unfold shiftedState, emit. cbn [fst snd]. rewrite Hm.
    split; [|split; [reflexivity|]].
    + destruct (Z.ltb_spec 2 (AllOps (cand_Metrics inP))) as [H2|H2].
      * rewrite Hfin, fmap_app, Hrun by lia.
        rewrite <- app_assoc. reflexivity.
      * exact Hfin.
    + simpl. intros H. contradiction H. reflexivity.
  - rewrite (scanStep_accept s targets (fin, inP)) by exact Hd.
    rewrite (scanStep_accept s targets (fin', inP')) by exact Hsame.
    unfold shiftedState. cbn [fst snd cand_Metrics]. rewrite Hm.
    split; [exact Hfin|]. split; [reflexivity|]. intros _.
    unfold shiftCandidate. cbn [cand_Start cand_End cand_StartInstruction
                                 cand_EndInstruction cand_Metrics].
    rewrite (int_id (i + 1)) by exact Hi.
    rewrite (int_id (i + k + 1)) by exact Hik.
    destruct (Z.eqb_spec (AllOps (cand_Metrics inP)) 0) as [Hz|Hnz].
    + f_equal. lia.
    + rewrite (Hrun Hnz). unfold shiftCandidate.
      cbn [cand_Start cand_StartInstruction]. f_equal. lia.
Qed.

Lemma shiftedState_loop k pre l :
  0 <= k ->
  forall i st st',
    0 <= i -> i + k + Z.of_nat (length l) <= GoInt.int_max ->
    shiftedState k pre st st' ->
    shiftedState k pre (scanLoop s targets l i st)
                       (scanLoop s targets l (i + k) st').
Proof.
  intros Hk. induction l as [|x l IH]; intros i st st' Hi Hmax Hst.
  - exact Hst.
  - cbn [scanLoop]. change (length (x :: l)) with (S (length l)) in Hmax.
    replace (i + k + 1) with (i + 1 + k) by lia.
    apply IH; [lia|lia|].
    apply shiftedState_step; [| |exact Hst];
      unfold GoInt.is_int, GoInt.int_min, GoInt.int_max in *; lia.
Qed.

Lemma shiftedState_emit k pre st st' :
  shiftedState k pre st st' ->
  emit st' = pre ++ (shiftCandidate k <$> emit st).
Proof.
  intros (Hfin & Hm & Hrun).
  destruct st as [fin inP], st' as [fin' inP']. cbn [fst snd] in *.
  unfold emit. rewrite Hm.
  destruct (Z.ltb_spec 2 (AllOps (cand_Metrics inP))) as [H2|H2].
  - rewrite Hfin, fmap_app, Hrun by lia.
    rewrite <- app_assoc. reflexivity.
  - exact Hfin.
Qed.

(** An open run grows over supported instructions that are no non-zero
    inbound target. *)
Lemma run_extends l a fin run :
  go_slice l ->
  Forall (fun x => supported s (inst_Op x) = true) run ->
  Forall (fun x => ~ (inst_Start x ∈ targets /\ 0 < inst_Start x)) run ->
  forall n inP,
    (forall j x, run !! j = Some x -> l !! (n + j)%nat = Some x) ->
    describes l inP a n ->
    let st' := scanLoop s targets run (Z.of_nat n) (fin, inP) in
    st'.1 = fin /\ describes l st'.2 a (n + length run).
Proof.
  intros Hl Hsup Hnt.
  induction run as [|x run IH]; intros n inP Hlook Hdesc st'; subst st'.
  - simpl. rewrite Nat.add_0_r. auto.
  - apply Forall_cons in Hsup as [Hsx Hsup].
    apply Forall_cons in Hnt as [Hnx Hnt].
    assert (l !! n = Some x) as Hx.
    { rewrite <- (Nat.add_0_r n). apply Hlook. reflexivity. }
    assert (disqualified s targets inP x = false) as Hd.
    { unfold disqualified. rewrite Hsx. cbn [negb orb].
      destruct (bool_decide_reflect (inst_Start x ∈ targets)) as [Ht|Ht];
        [|reflexivity].
      destruct (Z.ltb_spec 0 (inst_Start x)) as [Hp|Hp]; [|reflexivity].
      contradiction Hnx. auto. }
    destruct (accept_extends s targets l a n fin inP x Hl Hx Hdesc Hd)
      as [Hfst Hdesc'].
    cbn [scanLoop].
    destruct (scanStep s targets (fin, inP) (Z.of_nat n) x) as [f1 r1].
    cbn [fst snd] in *. subst f1.
    replace (Z.of_nat n + 1) with (Z.of_nat (S n)) by lia.
    change (length (x :: run)) with (S (length run)).
    replace (n + S (length run))%nat with (S n + length run)%nat by lia.
    apply IH; [exact Hsup|exact Hnt| |exact Hdesc'].
    intros j y Hy. replace (S n + j)%nat with (n + S j)%nat by lia.
    apply Hlook. exact Hy.
Qed.

End Composition.

Section CompositionResults.

Context `{ops : Operators}.
Variable s : scanner.

(** X10: an unsupported instruction splits the scan: the candidates of
    [l1 ++ x :: l2] are those of [l1] followed by those of [l2] with
    their instruction indexes moved by [length l1 + 1]; byte offsets and
    metrics are unchanged. *)
Theorem ScanFunc_split_at_unsupported bytecode targets l1 x l2 :
  go_slice (l1 ++ x :: l2) ->
  supported s (inst_Op x) = false ->
  (ScanFunc s bytecode (mkMeta (l1 ++ x :: l2) targets)).1
  = (ScanFunc s bytecode (mkMeta l1 targets)).1
    ++ (shiftCandidate (Z.of_nat (length l1) + 1)
          <$> (ScanFunc s bytecode (mkMeta l2 targets)).1).
Proof.
  intros Hl Hx. unfold ScanFunc. cbn [fst Instructions InboundTargets].
  rewrite scanLoop_app. cbn [scanLoop].
  set (st1 := scanLoop s targets l1 0 ([], zeroCandidate)).
  rewrite (scanStep_reject s targets st1)
    by (apply rejected_when_unsupported; exact Hx).
  replace (0 + Z.of_nat (length l1) + 1)
    with (0 + (Z.of_nat (length l1) + 1)) by lia.
  apply shiftedState_emit.
  unfold go_slice in Hl. rewrite length_app in Hl.
  change (length (x :: l2)) with (S (length l2)) in Hl.
  apply shiftedState_loop; [lia|lia|lia|].
  unfold shiftedState. cbn [fst snd].
  split; [rewrite app_nil_r; reflexivity|].
  split; [reflexivity|].
  simpl. intros H. contradiction H. reflexivity.
Qed.

(** X11: every run of at least three supported instructions is found:
    if the run begins at the start of the stream or right after an
    unsupported instruction, none of its instructions after the first
    starts at a non-zero inbound target, and it is followed by the end of
    the stream or by an instruction that is unsupported or starts at a
    non-zero inbound target, then [ScanFunc] returns a candidate with
    exactly the instruction range of the run. *)
Theorem ScanFunc_finds_run bytecode targets l1 x run l3 :
  go_slice (l1 ++ (x :: run) ++ l3) ->
  (l1 = [] \/ exists l0 u, l1 = l0 ++ [u]
                           /\ supported s (inst_Op u) = false) ->
  Forall (fun y => supported s (inst_Op y) = true) (x :: run) ->
  Forall (fun y => ~ (inst_Start y ∈ targets /\ 0 < inst_Start y)) run ->
  (2 <= length run)%nat ->
  (l3 = [] \/ exists y l4, l3 = y :: l4 /\ breaksRun s targets y) ->
  exists c,
    c ∈ (ScanFunc s bytecode
           (mkMeta (l1 ++ (x :: run) ++ l3) targets)).1
    /\ cand_StartInstruction c = Z.of_nat (length l1)
    /\ cand_EndInstruction c = Z.of_nat (length l1 + length (x :: run)).
Proof.
  intros Hl Hbefore Hsup Hnt Hlen Hafter.
  set (l := l1 ++ (x :: run) ++ l3) in *.
  set (n1 := length l1).
  apply Forall_cons in Hsup as [Hsx Hsup].
  (* the accumulator is empty when the run is reached *)
  set (st1 := scanLoop s targets l1 0 ([], zeroCandidate)).
  assert (cand_Metrics st1.2 = zeroMetrics) as Hz.
  { destruct Hbefore as [->|(l0 & u & -> & Hu)]; [reflexivity|].
    subst st1. rewrite scanLoop_app. cbn [scanLoop].
    rewrite scanStep_reject
      by (apply rejected_when_unsupported; exact Hu).
    reflexivity. }
  (* the first instruction opens the run *)
  assert (l !! n1 = Some x) as Hx.
  { subst l n1. rewrite lookup_app_r by lia.
    rewrite Nat.sub_diag. reflexivity. }
  destruct st1 as [fin1 acc1] eqn:E1. cbn [snd] in Hz.
  destruct (accept_opens s targets l n1 fin1 acc1 x Hl Hx Hz) as [Hf2 Hd2].
  { apply accepted_when_empty; [exact Hsx|]. rewrite Hz. reflexivity. }
  destruct (scanStep s targets (fin1, acc1) (Z.of_nat n1) x)
    as [fin2 acc2] eqn:E2.
  cbn [fst snd] in *. subst fin2.
  (* the other instructions extend it *)
  destruct (run_extends s targets l n1 fin1 run Hl Hsup Hnt (S n1) acc2)
    as [Hf3 Hd3]; [|exact Hd2|].
  { intros j y Hy. subst l n1. rewrite lookup_app_r by lia.
    replace (S (length l1) + j - length l1)%nat with (S j) by lia.
    cbn [app]. rewrite lookup_cons. rewrite lookup_app_l; [exact Hy|].
    apply lookup_lt_Some in Hy. exact Hy. }
  destruct (scanLoop s targets run (Z.of_nat (S n1)) (fin1, acc2))
    as [fin3 acc3] eqn:E3.
  cbn [fst snd] in *. subst fin3.
  set (n3 := (S n1 + length run)%nat) in *.
  assert (emit (fin1, acc3) = fin1 ++ [acc3]) as Hemit.
  { rewrite (emit_describes l n1 n3) by exact Hd3.
    destruct (decide (n1 + 3 <= n3)%nat); [reflexivity|lia]. }
  exists acc3.
  destruct Hd3 as (_ & Hsi & Hei & _).
  split; [|split; [exact Hsi|rewrite Hei; subst n3; simpl; f_equal; lia]].
  (* the state after the run, as the scan of the whole stream sees it *)
  unfold ScanFunc. cbn [fst Instructions InboundTargets].
  subst l. rewrite scanLoop_app. fold st1. rewrite E1.
  rewrite scanLoop_app. cbn [scanLoop]. fold n1.
  replace (0 + Z.of_nat n1) with (Z.of_nat n1) by lia. rewrite E2.
  replace (Z.of_nat n1 + 1) with (Z.of_nat (S n1)) by lia. rewrite E3.
  destruct Hafter as [->|(y & l4 & -> & Hy)].
  - cbn [scanLoop]. rewrite Hemit. apply elem_of_app. right.
    apply list_elem_of_singleton. reflexivity.
  - cbn [scanLoop].
    assert (disqualified s targets acc3 y = true) as Hrej.
    { destruct Hy as [Hu|[Ht Hp]].
      - apply rejected_when_unsupported. exact Hu.
      - apply rejected_when_target_inside; [exact Ht|exact Hp|].
        apply Z.ltb_lt.
        assert (emit (fin1, acc3) <> fin1) as Hne.
        { rewrite Hemit. intros Heq.
          apply (f_equal length) in Heq. rewrite length_app in Heq.
          simpl in Heq. lia. }
        unfold emit in Hne.
        destruct (Z.ltb_spec 2 (AllOps (cand_Metrics acc3))) as [H2|H2];
          [|contradiction Hne; reflexivity].
        apply Z.ltb_lt. lia. }
    rewrite (scanStep_reject s targets (fin1, acc3)) by exact Hrej.
    rewrite Hemit. cbn [snd].
    match goal with
    | |- _ ∈ emit (scanLoop _ _ _ ?i ?st) =>
        destruct (scanLoop_keeps_finished s targets l4 i st)
          as [more Hmore];
        destruct (emit_keeps_finished (scanLoop s targets l4 i st))
          as [more' Hmore'];
        rewrite Hmore', Hmore
    end.
    cbn [fst]. apply elem_of_app. left. apply elem_of_app. left.
    apply elem_of_app. right. apply list_elem_of_singleton. reflexivity.
Qed.

End CompositionResults.

Section MissingKey.

Context `{ops : Operators}.

(** X12: an opcode stored with the value [false] in [supportedOpcodes]
    is treated exactly as an opcode that is not a key of the map. *)
Theorem ScanFunc_false_entry_as_missing (m : gmap Z bool) (op : Z)
    bytecode meta :
  ScanFunc (mkScanner (<[op := false]> m)) bytecode meta
  = ScanFunc (mkScanner (delete op m)) bytecode meta.
Proof.
  unfold ScanFunc. f_equal. f_equal.
  apply supported_agree_loop. intros o. unfold supported.
  cbn [supportedOpcodes].
  destruct (decide (op = o)) as [->|Hne].
  - rewrite lookup_insert_eq, lookup_delete_eq. reflexivity.
  - rewrite lookup_insert_ne, lookup_delete_ne by exact Hne. reflexivity.
Qed.

End MissingKey.

Lemma ScanFunc_candidate_count_witness :
  go_slice (Instructions Samples.twoRuns)
  /\ 4 * Z.of_nat
           (length (@ScanFunc wasmOperators Samples.backend []
                      Samples.twoRuns).1)
     <= Z.of_nat (length (Instructions Samples.twoRuns)) + 1.
Proof.
  split; [exact twoRuns_go_slice|].
  exact (@ScanFunc_candidate_count wasmOperators Samples.backend []
           Samples.twoRuns twoRuns_go_slice).
Defined.

Lemma ScanFunc_nothing_supported_witness :
  Forall (fun x => supported Samples.backend (inst_Op x) = false)
    [Samples.call 0; Samples.call 2; Samples.call 4]
  /\ @ScanFunc wasmOperators Samples.backend []
       (mkMeta [Samples.call 0; Samples.call 2; Samples.call 4] {[ 2 ]})
     = ([], None).
Proof.
  assert (Forall (fun x => supported Samples.backend (inst_Op x) = false)
            [Samples.call 0; Samples.call 2; Samples.call 4]) as H
    by (repeat constructor).
  split; [exact H|].
  exact (@ScanFunc_nothing_supported wasmOperators Samples.backend []
           (mkMeta [Samples.call 0; Samples.call 2; Samples.call 4] {[ 2 ]})
           H).
Defined.

Lemma ScanFunc_depends_on_stream_only_witness :
  (Forall (fun x => supported Samples.backend (inst_Op x)
                    = supported (mkScanner (<[0x10 := false]>
                                   (supportedOpcodes Samples.backend)))
                        (inst_Op x))
     (Instructions Samples.twoRuns)
   /\ Forall (fun x => 0 < inst_Start x ->
                       (inst_Start x ∈ (∅ : gset Z)
                        <-> inst_Start x ∈ ({[ 0; 3 ]} : gset Z)))
        (Instructions Samples.twoRuns))
  /\ @ScanFunc wasmOperators Samples.backend [] Samples.twoRuns
     = @ScanFunc wasmOperators
         (mkScanner (<[0x10 := false]> (supportedOpcodes Samples.backend)))
         [0x42] (mkMeta (Instructions Samples.twoRuns) {[ 0; 3 ]}).
Proof.
  assert (Forall (fun x => supported Samples.backend (inst_Op x)
                           = supported (mkScanner (<[0x10 := false]>
                                          (supportedOpcodes Samples.backend)))
                               (inst_Op x))
            (Instructions Samples.twoRuns)) as Hs
    by (repeat constructor).
  assert (Forall (fun x => 0 < inst_Start x ->
                           (inst_Start x ∈ (∅ : gset Z)
                            <-> inst_Start x ∈ ({[ 0; 3 ]} : gset Z)))
            (Instructions Samples.twoRuns)) as Ht.
  { apply (bool_decide_unpack _). vm_compute. reflexivity. }
  split; [auto|].
  exact (@ScanFunc_depends_on_stream_only wasmOperators Samples.backend
           (mkScanner (<[0x10 := false]> (supportedOpcodes Samples.backend)))
           [] [0x42] (Instructions Samples.twoRuns) ∅ {[ 0; 3 ]} Hs Ht).
Defined.

Lemma ScanFunc_split_at_unsupported_witness :
  (go_slice ([Samples.const 0; Samples.const 2; Samples.add 4]
             ++ Samples.call 5
                :: [Samples.const 7; Samples.const 9; Samples.sub 11])
   /\ supported Samples.backend (inst_Op (Samples.call 5)) = false)
  /\ (@ScanFunc wasmOperators Samples.backend [] Samples.twoRuns).1
     = (@ScanFunc wasmOperators Samples.backend []
          (mkMeta [Samples.const 0; Samples.const 2; Samples.add 4] ∅)).1
       ++ (shiftCandidate 4
             <$> (@ScanFunc wasmOperators Samples.backend []
                    (mkMeta [Samples.const 7; Samples.const 9;
                             Samples.sub 11] ∅)).1).
Proof.
  split; [split; [exact twoRuns_go_slice|reflexivity]|].
  exact (@ScanFunc_split_at_unsupported wasmOperators Samples.backend [] ∅
           [Samples.const 0; Samples.const 2; Samples.add 4]
           (Samples.call 5)
           [Samples.const 7; Samples.const 9; Samples.sub 11]
           twoRuns_go_slice eq_refl).
Defined.

Lemma ScanFunc_finds_run_witness :
  (go_slice ([Samples.const 0; Samples.const 2; Samples.add 4;
              Samples.call 5]
             ++ (Samples.const 7 :: [Samples.const 9; Samples.sub 11])
             ++ [])
   /\ Forall (fun y => supported Samples.backend (inst_Op y) = true)
        (Samples.const 7 :: [Samples.const 9; Samples.sub 11])
   /\ Forall (fun y => ~ (inst_Start y ∈ (∅ : gset Z) /\ 0 < inst_Start y))
        [Samples.const 9; Samples.sub 11])
  /\ exists c,
       c ∈ (@ScanFunc wasmOperators Samples.backend [] Samples.twoRuns).1
       /\ cand_StartInstruction c = 4
       /\ cand_EndInstruction c = 7.
Proof.
  assert (Forall (fun y => supported Samples.backend (inst_Op y) = true)
            (Samples.const 7 :: [Samples.const 9; Samples.sub 11])) as Hsup
    by (repeat constructor).
  assert (Forall (fun y => ~ (inst_Start y ∈ (∅ : gset Z)
                              /\ 0 < inst_Start y))
            [Samples.const 9; Samples.sub 11]) as Hnt.
  { repeat constructor; intros [H _]; exact (not_elem_of_empty _ H). }
  split; [pose proof twoRuns_go_slice; auto|].
  exact (@ScanFunc_finds_run wasmOperators Samples.backend [] ∅
           [Samples.const 0; Samples.const 2; Samples.add 4; Samples.call 5]
           (Samples.const 7) [Samples.const 9; Samples.sub 11] []
           twoRuns_go_slice
           (or_intror
              (ex_intro _ [Samples.const 0; Samples.const 2; Samples.add 4]
                 (ex_intro _ (Samples.call 5) (conj eq_refl eq_refl))))
           Hsup Hnt (le_n 2) (or_introl eq_refl)).
Defined.

(** ** The trampoline and the callee's return *)

Lemma jitcall_run m codeAddress stackBase localsBase target :
  Amd64.entered m codeAddress stackBase localsBase ->
  Amd64.mem m !! GoInt.uint codeAddress = Some target ->
  Amd64.run Amd64.jitcall m
  = Amd64.Goto target
      (Amd64.setReg Amd64.AX target
         (Amd64.setReg Amd64.R11 localsBase
            (Amd64.setReg Amd64.R10 stackBase
               (Amd64.setReg Amd64.AX codeAddress m)))).
Proof.
  intros (Hcode & Hstack & Hlocals) Htarget.
  unfold Amd64.jitcall. cbn [Amd64.run Amd64.exec].
  unfold Amd64.address at 1. rewrite Z.add_0_r, Hcode.
  unfold Amd64.address at 1. cbn [Amd64.setReg Amd64.sp Amd64.mem].
  replace (Amd64.sp m + 8 + 8) with (Amd64.sp m + 16) by lia.
  rewrite Hstack.
  unfold Amd64.address at 1. cbn [Amd64.setReg Amd64.sp Amd64.mem].
  replace (Amd64.sp m + 8 + 16) with (Amd64.sp m + 24) by lia.
  rewrite Hlocals.
  unfold Amd64.address at 1.
  cbn [Amd64.setReg Amd64.sp Amd64.mem Amd64.regs].
  rewrite fn_lookup_insert_ne by discriminate.
  rewrite fn_lookup_insert_ne by discriminate.
  rewrite fn_lookup_insert, Z.add_0_r, Htarget.
  cbn [Amd64.setReg Amd64.sp Amd64.mem Amd64.regs].
  rewrite fn_lookup_insert. reflexivity.
Qed.

(** X13: [jitcall] leaves the caller's return address on top of the
    stack: a [RET] executed by the code it jumped to transfers control to
    the address that was at [0(SP)] when [jitcall] was entered, pops it,
    and still has [stackBase] and [localsBase] in [R10] and [R11]. *)
Theorem jitcall_callee_returns_to_caller m codeAddress stackBase localsBase
    target returnAddress :
  Amd64.entered m codeAddress stackBase localsBase ->
  Amd64.mem m !! GoInt.uint codeAddress = Some target ->
  Amd64.mem m !! Amd64.sp m = Some returnAddress ->
  exists m' m'',
    Amd64.run Amd64.jitcall m = Amd64.Goto target m'
    /\ Amd64.exec Amd64.RET m' = Amd64.Goto returnAddress m''
    /\ Amd64.sp m'' = GoInt.uint (Amd64.sp m + 8)
    /\ Amd64.mem m'' = Amd64.mem m
    /\ Amd64.regs m'' Amd64.R10 = stackBase
    /\ Amd64.regs m'' Amd64.R11 = localsBase.
Proof.
  intros Hent Htarget Hret.
  eexists. eexists.
  split; [apply (jitcall_run m codeAddress stackBase localsBase target);
          assumption|].
  cbn [Amd64.exec Amd64.setReg Amd64.sp Amd64.mem Amd64.regs].
  rewrite Hret.
  split; [reflexivity|].
  cbn [Amd64.sp Amd64.mem Amd64.regs].
  split; [reflexivity|]. split; [reflexivity|].
  split.
  - rewrite fn_lookup_insert_ne by discriminate.
    rewrite fn_lookup_insert_ne by discriminate.
    apply fn_lookup_insert.
  - rewrite fn_lookup_insert_ne by discriminate.
    apply fn_lookup_insert.
Qed.

Lemma jitcall_callee_returns_to_caller_witness :
  (Amd64.entered Samples.entry 5000 6000 7000
   /\ Amd64.mem Samples.entry !! GoInt.uint 5000 = Some 9000
   /\ Amd64.mem Samples.entry !! Amd64.sp Samples.entry = Some 42)
  /\ exists m' m'',
       Amd64.run Amd64.jitcall Samples.entry = Amd64.Goto 9000 m'
       /\ Amd64.exec Amd64.RET m' = Amd64.Goto 42 m''
       /\ Amd64.sp m'' = 1008.
Proof.
  assert (Amd64.entered Samples.entry 5000 6000 7000) as Hent
    by (repeat split).
  assert (Amd64.mem Samples.entry !! GoInt.uint 5000 = Some 9000) as Hslot
    by reflexivity.
  assert (Amd64.mem Samples.entry !! Amd64.sp Samples.entry = Some 42)
    as Hret by reflexivity.
  split; [auto|].
  destruct (jitcall_callee_returns_to_caller Samples.entry 5000 6000 7000
              9000 42 Hent Hslot Hret)
    as (m' & m'' & Hrun & Hexec & Hsp & _).
  exists m', m''. split; [exact Hrun|]. split; [exact Hexec|].
  rewrite Hsp. reflexivity.
Defined.
